(** * Portman test-injection engine: TestSuite and IntegrationTestWriter

    A shallow embedding of [src/application/TestSuite.ts] and
    [src/application/IntegrationTestWriter.ts].

    Request records ([PostmanMappedOperation]) are JavaScript objects that
    the injectors mutate in place and hand back.  A function that takes a
    record and returns it is embedded as a function on the record's value;
    code that walks arrays of records and relies on the mutation being seen
    through every reference is embedded over an explicit object store
    ([Heap]) indexed by references ([Ref]). *)

From Stdlib Require Import ZArith String Ascii List Bool Lia.
From Stdlib Require Import DecimalString DecimalNat.
From stdpp Require Import base option list strings.
Import ListNotations.

Local Open Scope string_scope.
Local Open Scope list_scope.
Local Open Scope Z_scope.

(** ** JavaScript primitives used by the two files *)

Module JS.

(** Truthiness of [string | undefined]: the empty string and [undefined]
    are falsy. *)
Definition truthyStr (s : option string) : bool :=
  match s with
  | Some s => negb (String.eqb s "")
  | None => false
  end.

(** Truthiness of [object | undefined] (arrays included: [[]] is truthy). *)
Definition truthy {A} (o : option A) : bool :=
  match o with Some _ => true | None => false end.

(** [arr.includes(x)] on a [string[]]; [x] may be [undefined], which a
    string array never contains. *)
Definition includes (arr : list string) (x : option string) : bool :=
  match x with
  | Some s => existsb (String.eqb s) arr
  | None => false
  end.

(** [a || b] on [T | undefined] where every defined [T] is truthy. *)
Definition orElse {A} (a : option A) (b : option A) : option A :=
  match a with Some _ => a | None => b end.

Definition isWhiteSpace (c : ascii) : bool :=
  let n := nat_of_ascii c in
  (Nat.eqb n 32 || (Nat.leb 9 n && Nat.leb n 13))%bool.

Fixpoint trimStart (s : string) : string :=
  match s with
  | String c s' => if isWhiteSpace c then trimStart s' else s
  | EmptyString => s
  end.

(** Value of a character as a digit in some radix up to 36. *)
Definition digitValue (c : ascii) : option Z :=
  let n := Z.of_nat (nat_of_ascii c) in
  if (48 <=? n) && (n <=? 57) then Some (n - 48)
  else if (97 <=? n) && (n <=? 122) then Some (n - 87)
  else if (65 <=? n) && (n <=? 90) then Some (n - 55)
  else None.

(** Longest prefix of radix digits; [None] when that prefix is empty. *)
Fixpoint parseDigits (radix : Z) (s : string) (acc : option Z) : option Z :=
  match s with
  | String c s' =>
      match digitValue c with
      | Some d =>
          if d <? radix
          then parseDigits radix s' (Some (default 0 acc * radix + d))
          else acc
      | None => acc
      end
  | EmptyString => acc
  end.

(** [parseInt(s)] with the radix omitted; [None] is [NaN].  The result is
    kept as an exact integer: the only use made of it is a comparison with
    200 and 302, which rounding to a double does not change. *)
Definition parseInt (s : string) : option Z :=
  let s := trimStart s in
  let '(sign, s) :=
    match s with
    | String "-" s' => (-1, s')
    | String "+" s' => (1, s')
    | _ => (1, s)
    end in
  let '(radix, s) :=
    match s with
    | String "0" (String "x" s') => (16, s')
    | String "0" (String "X" s') => (16, s')
    | _ => (10, s)
    end in
  Z.mul sign <$> parseDigits radix s None.

End JS.

(** ** Data model *)

(** An OpenAPI schema object is opaque to this code: it is only tested
    for presence and handed to an injector.  It is kept as its JSON text. *)
Definition SchemaObject := string.

(** One entry of a content test's [responseBodyTests]. *)
Record ResponseBodyTest := {
  rbt_key : string;
  rbt_value : string
}.

(** The value of one check kind inside a contract test
    ([contractTest['statusSuccess']] and the like).  The code reads
    [excludeForOperations] from it and passes the whole value on to the
    status-code and response-time injectors. *)
Record TestType := {
  tt_excludeForOperations : option (list string);
  tt_param : option Z
}.

(** What the injectors attach to a request record. *)
Inductive Assertion :=
| StatusSuccessTest
| StatusCodeTest (opt : TestType)
| ResponseTimeTest (opt : TestType)
| ContentTypeTest (contentType : string)
| JsonBodyTest
| JsonSchemaTest (schema : SchemaObject)
| HeaderTest (headerName : string)
| BodyContentTest (tests : list ResponseBodyTest).

(** [PostmanMappedOperation]: a request record of the collection. *)
Record PostmanMappedOperation := {
  pm_id : option string;
  pm_name : string;
  pm_pathRef : string;
  pm_tests : list Assertion
}.

Record MediaTypeObject := {
  mt_schema : option SchemaObject
}.

(** [OpenAPIV3.ResponseObject]; [content] and [headers] are the
    [Object.entries] of the respective objects, in enumeration order. *)
Record ResponseObject := {
  content : option (list (string * MediaTypeObject));
  headers : option (list string)
}.

Record OperationObject := {
  responses : option (list (string * ResponseObject))
}.

(** [OasMappedOperation]: a contract operation. *)
Record OasMappedOperation := {
  oa_pathRef : string;
  oa_schema : option OperationObject
}.

Record ContractTestConfig := {
  ct_openApiOperation : option string;
  ct_openApiOperationId : option string;
  ct_excludeForOperations : option (list string);
  statusSuccess : option TestType;
  statusCode : option TestType;
  responseTime : option TestType;
  contentType : option TestType;
  jsonBody : option TestType;
  schemaValidation : option TestType;
  headersPresent : option TestType
}.

Record ContentTestConfig := {
  cn_openApiOperation : option string;
  cn_openApiOperationId : option string;
  cn_excludeForOperations : option (list string);
  responseBodyTests : option (list ResponseBodyTest)
}.

(** The fields [getOperationsFromSetting] reads; every rule kind of its
    argument's union type carries them. *)
Class OperationSetting (S : Type) := {
  openApiOperation : S -> option string;
  openApiOperationId : S -> option string;
  excludeForOperations : S -> option (list string)
}.

#[export] Instance ContractTest_setting : OperationSetting ContractTestConfig := {
  openApiOperation := ct_openApiOperation;
  openApiOperationId := ct_openApiOperationId;
  excludeForOperations := ct_excludeForOperations
}.

#[export] Instance ContentTest_setting : OperationSetting ContentTestConfig := {
  openApiOperation := cn_openApiOperation;
  openApiOperationId := cn_openApiOperationId;
  excludeForOperations := cn_excludeForOperations
}.

(** *** The object store *)

(** A reference to a request record, and the store of all records
    allocated so far.  Every reference the program holds points to a
    record; a reference outside the store does not arise. *)
Abbreviation Ref := nat (only parsing).
Abbreviation Heap := (list PostmanMappedOperation) (only parsing).

(** The parsed request collection, at its interface: the records it
    mapped and its three lookups (the parser itself is not part of the
    two files). *)
Record PostmanParser := {
  mappedOperations : list Ref;
  getOperationsByPath : string -> list Ref;
  getOperationsByIds : list string -> list Ref;
  getOperationById : string -> option Ref
}.

(** The parsed API contract, at its interface. *)
Record OpenApiParser := {
  getOperationByPath : string -> option OasMappedOperation
}.

Record TestSuite := {
  oasParser : OpenApiParser;
  postmanParser : PostmanParser;
  contractTests : option (list ContractTestConfig);
  contentTests : option (list ContentTestConfig)
}.

(** ** Helpers imported by TestSuite.ts *)

(** Modelled from the spec: [inRange] of [../utils] is missing; the
    success range has its lower bound inclusive and its upper bound
    exclusive.  [NaN] ([None]) is in no range. *)
Definition inRange (x : option Z) (lo hi : Z) : bool :=
  match x with
  | Some n => (lo <=? n) && (n <? hi)
  | None => false
  end.

(** Modelled from the spec: [inOperations] of [../utils/inOperations] is
    missing; an exclusion list holds operation identifiers or path
    references, and an absent list excludes nothing. *)
Definition inOperations (pmOperation : PostmanMappedOperation)
    (operations : option (list string)) : bool :=
  match operations with
  | Some ops =>
      JS.includes ops (pm_id pmOperation)
      || JS.includes ops (Some (pm_pathRef pmOperation))
  | None => false
  end.

(** Modelled from the spec: the assertion injectors are missing; each
    returns the same record with one additional assertion appended. *)
Definition appendTest (a : Assertion) (pmOperation : PostmanMappedOperation)
    : PostmanMappedOperation :=
  {| pm_id := pm_id pmOperation;
     pm_name := pm_name pmOperation;
     pm_pathRef := pm_pathRef pmOperation;
     pm_tests := pm_tests pmOperation ++ [a] |}.

Definition testResponseStatusSuccess (pmOperation : PostmanMappedOperation) :=
  appendTest StatusSuccessTest pmOperation.

Definition testResponseStatusCode (opt : TestType)
    (pmOperation : PostmanMappedOperation) :=
  appendTest (StatusCodeTest opt) pmOperation.

Definition testResponseTime (opt : TestType)
    (pmOperation : PostmanMappedOperation) :=
  appendTest (ResponseTimeTest opt) pmOperation.

Definition testResponseContentType (contentType : string)
    (pmOperation : PostmanMappedOperation) (oaOperation : OasMappedOperation) :=
  appendTest (ContentTypeTest contentType) pmOperation.

Definition testResponseJsonBody (pmOperation : PostmanMappedOperation)
    (oaOperation : OasMappedOperation) :=
  appendTest JsonBodyTest pmOperation.

Definition testResponseJsonSchema (schema : SchemaObject)
    (pmOperation : PostmanMappedOperation) (oaOperation : OasMappedOperation) :=
  appendTest (JsonSchemaTest schema) pmOperation.

Definition testResponseHeader (headerName : string)
    (pmOperation : PostmanMappedOperation) (oaOperation : OasMappedOperation) :=
  appendTest (HeaderTest headerName) pmOperation.

Definition testResponseBodyContent (tests : list ResponseBodyTest)
    (pmOperation : PostmanMappedOperation) :=
  appendTest (BodyContentTest tests) pmOperation.

(** ** TestSuite.ts *)

(** [getOperationsFromSetting].  The records are read through the store
    because the exclusion filter looks at each record's [id] and
    [pathRef]. *)
Definition keepOperation (h : Heap) (excludedOperations : list string)
    (pmOperation : Ref) : bool :=
  match h !! pmOperation with
  | Some pm =>
      JS.truthyStr (pm_id pm)
      && negb (JS.includes excludedOperations (pm_id pm))
      && negb (JS.includes excludedOperations (Some (pm_pathRef pm)))
  | None => false
  end.

Definition resolveOperations {S} `{OperationSetting S}
    (parser : PostmanParser) (settings : S) : list Ref :=
  if JS.truthyStr (openApiOperation settings)
  then getOperationsByPath parser (default "" (openApiOperation settings))
  else if JS.truthyStr (openApiOperationId settings)
  then getOperationsByIds parser [default "" (openApiOperationId settings)]
  else [].

Definition getOperationsFromSetting {S} `{OperationSetting S}
    (this : TestSuite) (h : Heap) (settings : S) : list Ref :=
  let pmOperations := resolveOperations (postmanParser this) settings in
  match excludeForOperations settings with
  | Some excludedOperations =>
      List.filter (keepOperation h excludedOperations) pmOperations
  | None => pmOperations
  end.

(** [contractTest[type]], for the property names the file looks up. *)
Definition getTestTypeFromContractTests (contractTest : ContractTestConfig)
    (type : string) : option TestType :=
  if String.eqb type "statusSuccess" then statusSuccess contractTest
  else if String.eqb type "statusCode" then statusCode contractTest
  else if String.eqb type "responseTime" then responseTime contractTest
  else if String.eqb type "contentType" then contentType contractTest
  else if String.eqb type "jsonBody" then jsonBody contractTest
  else if String.eqb type "schemaValidation" then schemaValidation contractTest
  else if String.eqb type "headersPresent" then headersPresent contractTest
  else None.

(** [opt && !inOperations(pmOperation, opt?.excludeForOperations)] *)
Definition checkApplies (opt : option TestType)
    (pmOperation : PostmanMappedOperation) : bool :=
  match opt with
  | Some o => negb (inOperations pmOperation (tt_excludeForOperations o))
  | None => false
  end.

(** Body of the loop over the content types of one response. *)
Definition injectContentEntry (oaOperation : OasMappedOperation)
    (optContentType optJsonBody optSchemaValidation : option TestType)
    (pmOperation : PostmanMappedOperation)
    (entry : string * MediaTypeObject) : PostmanMappedOperation :=
  let '(contentType, content) := entry in
  if negb (JS.truthyStr (Some contentType)) then pmOperation
  else
    let pmOperation :=
      if checkApplies optContentType pmOperation
      then testResponseContentType contentType pmOperation oaOperation
      else pmOperation in
    let pmOperation :=
      if JS.truthy optJsonBody
         && String.eqb contentType "application/json"
         && checkApplies optJsonBody pmOperation
      then testResponseJsonBody pmOperation oaOperation
      else pmOperation in
    match optSchemaValidation, mt_schema content with
    | Some o, Some schema =>
        if negb (inOperations pmOperation (tt_excludeForOperations o))
        then testResponseJsonSchema schema pmOperation oaOperation
        else pmOperation
    | _, _ => pmOperation
    end.

(** Body of the loop over the header names of one response. *)
Definition injectHeaderEntry (oaOperation : OasMappedOperation)
    (optHeadersPresent : option TestType)
    (pmOperation : PostmanMappedOperation) (headerName : string)
    : PostmanMappedOperation :=
  if negb (JS.truthyStr (Some headerName)) then pmOperation
  else if checkApplies optHeadersPresent pmOperation
  then testResponseHeader headerName pmOperation oaOperation
  else pmOperation.

(** Body of the loop over the declared responses. *)
Definition injectResponse (contractTest : ContractTestConfig)
    (oaOperation : OasMappedOperation)
    (pmOperation : PostmanMappedOperation)
    (entry : string * ResponseObject) : PostmanMappedOperation :=
  let '(code, responseObject) := entry in
  if negb (inRange (JS.parseInt code) 200 302) then pmOperation
  else
    let optStatusSuccess := getTestTypeFromContractTests contractTest "statusSuccess" in
    let optStatusCode := getTestTypeFromContractTests contractTest "statusCode" in
    let optResponseTime := getTestTypeFromContractTests contractTest "responseTime" in
    let optContentType := getTestTypeFromContractTests contractTest "contentType" in
    let optJsonBody := getTestTypeFromContractTests contractTest "jsonBody" in
    let optSchemaValidation :=
      getTestTypeFromContractTests contractTest "schemaValidation" in
    let optHeadersPresent := getTestTypeFromContractTests contractTest "headersPresent" in
    let pmOperation :=
      if checkApplies optStatusSuccess pmOperation
      then testResponseStatusSuccess pmOperation
      else pmOperation in
    let pmOperation :=
      match optStatusCode with
      | Some o =>
          if checkApplies optStatusCode pmOperation
          then testResponseStatusCode o pmOperation
          else pmOperation
      | None => pmOperation
      end in
    let pmOperation :=
      match optResponseTime with
      | Some o =>
          if checkApplies optResponseTime pmOperation
          then testResponseTime o pmOperation
          else pmOperation
      | None => pmOperation
      end in
    let pmOperation :=
      match content responseObject with
      | Some entries =>
          fold_left
            (injectContentEntry oaOperation optContentType optJsonBody
               optSchemaValidation)
            entries pmOperation
      | None => pmOperation
      end in
    match headers responseObject with
    | Some names =>
        fold_left (injectHeaderEntry oaOperation optHeadersPresent)
          names pmOperation
    | None => pmOperation
    end.

Definition injectContractTests (pmOperation : PostmanMappedOperation)
    (oaOperation : OasMappedOperation) (contractTest : ContractTestConfig)
    : PostmanMappedOperation :=
  match oa_schema oaOperation with
  | Some schema =>
      match responses schema with
      | Some rs => fold_left (injectResponse contractTest oaOperation) rs pmOperation
      | None => pmOperation
      end
  | None => pmOperation
  end.

(** One turn of [operations.map] in [generateContractTests]: the record
    behind the reference is replaced by what the injection leaves in it. *)
Definition contractTestOperation (this : TestSuite)
    (oaOperation : option OasMappedOperation)
    (contractTest : ContractTestConfig) (h : Heap) (pmOperation : Ref) : Heap :=
  match h !! pmOperation with
  | Some pm =>
      match JS.orElse oaOperation
              (getOperationByPath (oasParser this) (pm_pathRef pm)) with
      | Some operation =>
          <[pmOperation := injectContractTests pm operation contractTest]> h
      | None => h
      end
  | None => h
  end.

Definition generateContractTests (this : TestSuite)
    (pmOperations : option (list Ref))
    (oaOperation : option OasMappedOperation)
    (contractTests_ : option (list ContractTestConfig)) (h : Heap) : Heap :=
  match JS.orElse contractTests_ (contractTests this) with
  | None => h
  | Some tests =>
      fold_left
        (fun h contractTest =>
           let operations :=
             match pmOperations with
             | Some ops => ops
             | None => getOperationsFromSetting this h contractTest
             end in
           fold_left (contractTestOperation this oaOperation contractTest)
             operations h)
        tests h
  end.

(** One turn of [operations.map] in [injectContentTests]. *)
Definition contentTestOperation (contentTest : ContentTestConfig)
    (h : Heap) (pmOperation : Ref) : Heap :=
  match responseBodyTests contentTest with
  | Some tests => alter (testResponseBodyContent tests) pmOperation h
  | None => h
  end.

(** [injectContentTests]: the store after the call and the returned
    array. *)
Definition injectContentTests (this : TestSuite)
    (pmOperations : option (list Ref))
    (contentTests_ : option (list ContentTestConfig)) (h : Heap)
    : Heap * list Ref :=
  match contentTests this with
  | None => (h, mappedOperations (postmanParser this))
  | Some thisContentTests =>
      let tests := default thisContentTests contentTests_ in
      let h' :=
        fold_left
          (fun h contentTest =>
             let operations :=
               match pmOperations with
               | Some ops => ops
               | None => getOperationsFromSetting this h contentTest
               end in
             fold_left (contentTestOperation contentTest) operations h)
          tests h in
      (h', mappedOperations (postmanParser this))
  end.

(** ** IntegrationTestWriter.ts *)

(** A variation; its remaining fields are read only by
    [VariationWriter.injectVariations]. *)
Record VariationConfig := {
  vr_name : string;
  vr_settings : list string
}.

Record IntegrationStep := {
  st_openApiOperationId : string;
  variations : list VariationConfig
}.

Record IntegrationTestConfig := {
  it_name : string;
  operations : list IntegrationStep
}.

(** A folder of the collection: its name and its items. *)
Record ItemGroup := {
  ig_name : string;
  ig_items : list Ref
}.

Definition Collection := list ItemGroup.

(** What [add] takes from outside the two files: the successive results
    of [Math.random()], as the template literal renders them, and
    [VariationWriter.injectVariations], which works on the clone it is
    given. *)
Record Environment := {
  random : nat -> string;
  injectVariations :
    PostmanMappedOperation -> option OasMappedOperation -> VariationConfig ->
    PostmanMappedOperation
}.

(** The state [add] threads: the object store, the number of
    [Math.random()] calls made so far and the items of the variation
    writer's folder. *)
Record WriterState := {
  heap : Heap;
  randomCalls : nat;
  variationFolder : list Ref
}.

(** Modelled from the spec: [PostmanMappedOperation.clone] is missing; the
    clone carries the identifier and the name it is given and shares no
    mutable part with its source. *)
Definition clone (pmOperation : PostmanMappedOperation)
    (newId : string) (name : string) : PostmanMappedOperation :=
  {| pm_id := Some newId;
     pm_name := name;
     pm_pathRef := pm_pathRef pmOperation;
     pm_tests := pm_tests pmOperation |}.

(** The template literal [`${variationName}-${Math.random()}`]. *)
Definition newId (variationName : string) (draw : string) : string :=
  variationName +:+ "-" +:+ draw.

(** One turn of [variations.map]: clone, inject, add to the folder
    (modelled from the spec: [VariationWriter.addToFolder] is missing; it
    places the clone into the grouping, after the items already there). *)
Definition addVariation (env : Environment)
    (pmOperation : PostmanMappedOperation)
    (oaOperation : option OasMappedOperation)
    (s : WriterState) (variation : VariationConfig) : WriterState :=
  let variationName := vr_name variation in
  let operationVariation :=
    clone pmOperation (newId variationName (random env (randomCalls s)))
      variationName in
  let operationVariation :=
    injectVariations env operationVariation oaOperation variation in
  {| heap := heap s ++ [operationVariation];
     randomCalls := S (randomCalls s);
     variationFolder := variationFolder s ++ [List.length (heap s)] |}.

(** One turn of [operations.map] in [add]. *)
Definition addStep (env : Environment) (testSuite : TestSuite)
    (s : WriterState) (step : IntegrationStep) : WriterState :=
  match getOperationById (postmanParser testSuite)
          (st_openApiOperationId step) with
  | None => s
  | Some r =>
      match heap s !! r with
      | None => s
      | Some pmOperation =>
          let oaOperation :=
            getOperationByPath (oasParser testSuite) (pm_pathRef pmOperation) in
          fold_left (addVariation env pmOperation oaOperation)
            (variations step) s
      end
  end.

Record IntegrationTestWriter := {
  testSuite : TestSuite;
  integrationTestFolderName : string;
  integrationTestCollection : Collection
}.

(** [add]: the writer, the store and the count of random draws after the
    call (modelled from the spec: [VariationWriter.mergeToCollection] is
    missing; it appends the accumulated grouping to the collection it is
    given and returns that collection). *)
Definition add (env : Environment) (this : IntegrationTestWriter)
    (integrationTest : IntegrationTestConfig) (h : Heap) (calls : nat)
    : IntegrationTestWriter * Heap * nat :=
  let s :=
    fold_left (addStep env (testSuite this)) (operations integrationTest)
      {| heap := h; randomCalls := calls; variationFolder := [] |} in
  ({| testSuite := testSuite this;
      integrationTestFolderName := integrationTestFolderName this;
      integrationTestCollection :=
        integrationTestCollection this
        ++ [ {| ig_name := it_name integrationTest;
                ig_items := variationFolder s |} ] |},
   heap s, randomCalls s).

(** ** TestSuite.ts: construction and variable assignment *)

Record VariationTestConfig := {
  vt_openApiOperation : option string;
  vt_openApiOperationId : option string;
  vt_excludeForOperations : option (list string);
  vt_variations : list VariationConfig
}.

Record ExtendTestsConfig := {
  et_openApiOperation : option string;
  et_openApiOperationId : option string;
  et_excludeForOperations : option (list string);
  et_tests : option (list string)
}.

(** An assign-variables setting; the entries of [collectionVariables] are
    read only by [assignCollectionVariables]. *)
Record AssignVariablesConfig := {
  av_openApiOperation : option string;
  av_openApiOperationId : option string;
  av_excludeForOperations : option (list string);
  collectionVariables : option (list string)
}.

#[export] Instance AssignVariables_setting : OperationSetting AssignVariablesConfig := {
  openApiOperation := av_openApiOperation;
  openApiOperationId := av_openApiOperationId;
  excludeForOperations := av_excludeForOperations
}.

(** [config.tests] *)
Record TestsConfig := {
  cfg_contractTests : option (list ContractTestConfig);
  cfg_contentTests : option (list ContentTestConfig);
  cfg_variationTests : option (list VariationTestConfig);
  cfg_extendTests : option (list ExtendTestsConfig)
}.

(** [PortmanConfig], with the fields the modelled functions read. *)
Record PortmanConfig := {
  cfg_tests : option TestsConfig;
  assignVariables : option (list AssignVariablesConfig)
}.

Record TestSuiteOptions := {
  opt_oasParser : OpenApiParser;
  opt_postmanParser : PostmanParser;
  opt_config : option PortmanConfig
}.

(** The fields of a [TestSuite] instance that [TestSuite] above does not
    carry. *)
Record TestSuiteState := {
  config : option PortmanConfig;
  variationTests : option (list VariationTestConfig);
  extendTests : option (list ExtendTestsConfig);
  pmResponseJsonVarInjected : bool
}.

(** [setupTests]: the values the four test fields have after it; they
    stay undefined when the configuration has no [tests]. *)
Definition setupTests (config : option PortmanConfig)
    : option (list ContractTestConfig) * option (list ContentTestConfig)
      * option (list VariationTestConfig) * option (list ExtendTestsConfig) :=
  match config ≫= cfg_tests with
  | None => (None, None, None, None)
  | Some t =>
      (cfg_contractTests t, cfg_contentTests t, cfg_variationTests t,
       cfg_extendTests t)
  end.

(** The constructor. *)
Definition newTestSuite (options : TestSuiteOptions)
    : TestSuite * TestSuiteState :=
  let '(contractTests_, contentTests_, variationTests_, extendTests_) :=
    setupTests (opt_config options) in
  ({| oasParser := opt_oasParser options;
      postmanParser := opt_postmanParser options;
      contractTests := contractTests_;
      contentTests := contentTests_ |},
   {| config := opt_config options;
      variationTests := variationTests_;
      extendTests := extendTests_;
      pmResponseJsonVarInjected := false |}).

(** [assignCollectionVariables] is imported from a file outside the two;
    it is taken at its interface: it works on the record it is given and
    returns the counter of fixed values. *)
Definition AssignCollectionVariables : Type :=
  PostmanMappedOperation -> AssignVariablesConfig -> nat ->
  PostmanMappedOperation * nat.

(** One turn of [operations.map] in [injectAssignVariables]: the store and
    [fixedValueCounter]. *)
Definition assignOperation (assignCollectionVariables : AssignCollectionVariables)
    (assignVarSetting : AssignVariablesConfig)
    (st : list PostmanMappedOperation * nat) (pmOperation : Ref)
    : list PostmanMappedOperation * nat :=
  match st.1 !! pmOperation with
  | Some pm =>
      let '(pm', fixedValueCounter) :=
        assignCollectionVariables pm assignVarSetting st.2 in
      (<[pmOperation := pm']> st.1, fixedValueCounter)
  | None => st
  end.

(** One turn of [settings.map] in [injectAssignVariables]. *)
Definition assignSetting (assignCollectionVariables : AssignCollectionVariables)
    (this : TestSuite) (pmOperations : option (list Ref))
    (h : Heap) (assignVarSetting : AssignVariablesConfig) : Heap :=
  match collectionVariables assignVarSetting with
  | None => h
  | Some _ =>
      let operations :=
        match pmOperations with
        | Some ops => ops
        | None => getOperationsFromSetting this h assignVarSetting
        end in
      (fold_left (assignOperation assignCollectionVariables assignVarSetting)
         operations (h, 0%nat)).1
  end.

Definition injectAssignVariables
    (assignCollectionVariables : AssignCollectionVariables)
    (this : TestSuite) (state : TestSuiteState)
    (pmOperations : option (list Ref))
    (assignVariables_ : option (list AssignVariablesConfig)) (h : Heap)
    : Heap * list Ref :=
  match config state ≫= assignVariables with
  | None => (h, mappedOperations (postmanParser this))
  | Some own =>
      let settings := default own assignVariables_ in
      (fold_left (assignSetting assignCollectionVariables this pmOperations)
         settings h,
       mappedOperations (postmanParser this))
  end.

(** ** Vocabulary of the properties *)

Definition isStatusSuccess (a : Assertion) : bool :=
  match a with StatusSuccessTest => true | _ => false end.

Definition isContentType (a : Assertion) : bool :=
  match a with ContentTypeTest _ => true | _ => false end.

Definition isJsonBody (a : Assertion) : bool :=
  match a with JsonBodyTest => true | _ => false end.

Definition isJsonSchema (a : Assertion) : bool :=
  match a with JsonSchemaTest _ => true | _ => false end.

(** Number of assertions of one kind among a list of assertions. *)
Definition countKind (kind : Assertion -> bool) (l : list Assertion) : nat :=
  List.length (List.filter kind l).

(** Number of assertions of one kind attached to a record. *)
Definition countTests (kind : Assertion -> bool)
    (pmOperation : PostmanMappedOperation) : nat :=
  countKind kind (pm_tests pmOperation).

(** The record with further assertions after those it has. *)
Definition addTests (pmOperation : PostmanMappedOperation)
    (l : list Assertion) : PostmanMappedOperation :=
  {| pm_id := pm_id pmOperation;
     pm_name := pm_name pmOperation;
     pm_pathRef := pm_pathRef pmOperation;
     pm_tests := pm_tests pmOperation ++ l |}.

(** A response key whose status code lies in [200, 302). *)
Definition successCode (code : string) : bool :=
  match JS.parseInt code with
  | Some n => (200 <=? n) && (n <? 302)
  | None => false
  end.

(** The contract operation with the given declared responses. *)
Definition withResponses (oaOperation : OasMappedOperation)
    (rs : list (string * ResponseObject)) : OasMappedOperation :=
  {| oa_pathRef := oa_pathRef oaOperation;
     oa_schema := Some {| responses := Some rs |} |}.

(** The declared responses of a contract operation (none when the
    operation has no schema or no [responses]). *)
Definition declaredResponses (oaOperation : OasMappedOperation)
    : list (string * ResponseObject) :=
  default [] (oa_schema oaOperation ≫= responses).

(** The content-type entries declared under the responses whose status
    code lies in the success range. *)
Definition successContent (oaOperation : OasMappedOperation)
    : list (string * MediaTypeObject) :=
  flat_map (fun e => default [] (content (snd e)))
    (List.filter (fun e => successCode (fst e)) (declaredResponses oaOperation)).

Definition named (e : string * MediaTypeObject) : bool :=
  negb (String.eqb (fst e) "").

Definition isJson (e : string * MediaTypeObject) : bool :=
  String.eqb (fst e) "application/json".

Definition declaresSchema (e : string * MediaTypeObject) : bool :=
  JS.truthy (mt_schema (snd e)).

(** *** What each loop turn contributes

    The assertions one content-type entry, one header name and one
    response contribute to a record, read off the three check lists of
    the rule.  [pmOperation] is consulted for its identifier and path
    reference only. *)

Definition optTest (b : bool) (a : Assertion) : list Assertion :=
  if b then [a] else [].

Definition contentEntryTests (contractTest : ContractTestConfig)
    (pmOperation : PostmanMappedOperation)
    (e : string * MediaTypeObject) : list Assertion :=
  if named e then
    optTest (checkApplies (contentType contractTest) pmOperation)
      (ContentTypeTest (fst e))
    ++ optTest (isJson e && checkApplies (jsonBody contractTest) pmOperation)
         JsonBodyTest
    ++ match mt_schema (snd e) with
       | Some schema =>
           optTest (checkApplies (schemaValidation contractTest) pmOperation)
             (JsonSchemaTest schema)
       | None => []
       end
  else [].

Definition headerTests (contractTest : ContractTestConfig)
    (pmOperation : PostmanMappedOperation) (headerName : string)
    : list Assertion :=
  optTest (negb (String.eqb headerName "")
           && checkApplies (headersPresent contractTest) pmOperation)
    (HeaderTest headerName).

Definition responseTests (contractTest : ContractTestConfig)
    (pmOperation : PostmanMappedOperation)
    (e : string * ResponseObject) : list Assertion :=
  if successCode (fst e) then
    optTest (checkApplies (statusSuccess contractTest) pmOperation)
      StatusSuccessTest
    ++ match statusCode contractTest with
       | Some o =>
           optTest (checkApplies (statusCode contractTest) pmOperation)
             (StatusCodeTest o)
       | None => []
       end
    ++ match responseTime contractTest with
       | Some o =>
           optTest (checkApplies (responseTime contractTest) pmOperation)
             (ResponseTimeTest o)
       | None => []
       end
    ++ flat_map (contentEntryTests contractTest pmOperation)
         (default [] (content (snd e)))
    ++ flat_map (headerTests contractTest pmOperation)
         (default [] (headers (snd e)))
  else [].

(** The rule without its status-success check. *)
Definition withoutStatusSuccess (contractTest : ContractTestConfig)
    : ContractTestConfig :=
  {| ct_openApiOperation := ct_openApiOperation contractTest;
     ct_openApiOperationId := ct_openApiOperationId contractTest;
     ct_excludeForOperations := ct_excludeForOperations contractTest;
     statusSuccess := None;
     statusCode := statusCode contractTest;
     responseTime := responseTime contractTest;
     contentType := contentType contractTest;
     jsonBody := jsonBody contractTest;
     schemaValidation := schemaValidation contractTest;
     headersPresent := headersPresent contractTest |}.

(** *** Renderings of [Math.random()]

    [Math.random()] returns a number in [0, 1); the template literal
    renders it as [0], as [0.] followed by digits, or, below 1e-6, as a
    mantissa ([d] or [d.ddd]), the letter [e], a minus sign and an
    exponent without leading zero. *)

Definition isDigit (c : ascii) : bool :=
  let n := nat_of_ascii c in (Nat.leb 48 n && Nat.leb n 57)%bool.

Fixpoint allDigits (s : string) : bool :=
  match s with
  | String c s' => isDigit c && allDigits s'
  | EmptyString => true
  end.

Definition digits (s : string) : bool :=
  negb (String.eqb s "") && allDigits s.

(** The parts of a string before and after the first occurrence of a
    character. *)
Fixpoint splitFirst (c : ascii) (s : string) : option (string * string) :=
  match s with
  | String a s' =>
      if Ascii.eqb a c then Some ("", s')
      else match splitFirst c s' with
           | Some (l, r) => Some (String a l, r)
           | None => None
           end
  | EmptyString => None
  end.

(** The parts of a string before and after the last occurrence of a
    character. *)
Fixpoint splitLast (c : ascii) (s : string) : option (string * string) :=
  match s with
  | String a s' =>
      match splitLast c s' with
      | Some (l, r) => Some (String a l, r)
      | None => if Ascii.eqb a c then Some ("", s') else None
      end
  | EmptyString => None
  end.

Definition mantissaOk (s : string) : bool :=
  match s with
  | String d EmptyString => isDigit d
  | String d (String p f) => isDigit d && Ascii.eqb p "." && digits f
  | EmptyString => false
  end.

Definition exponentOk (s : string) : bool :=
  match s with
  | String m (String d n) =>
      Ascii.eqb m "-" && isDigit d && negb (Ascii.eqb d "0") && allDigits n
  | _ => false
  end.

Definition fractionOk (s : string) : bool :=
  match s with
  | String z (String p f) => Ascii.eqb z "0" && Ascii.eqb p "." && digits f
  | _ => false
  end.

Definition drawOk (s : string) : bool :=
  match splitFirst "e" s with
  | Some (m, x) => mantissaOk m && exponentOk x
  | None => String.eqb s "0" || fractionOk s
  end.

Definition startsWithZero (s : string) : bool :=
  match s with
  | String c _ => Ascii.eqb c "0"
  | EmptyString => false
  end.

(** Reading a clone identifier back: the variation name and the draw. *)
Definition readId (id : string) : option (string * string) :=
  match splitLast "-" id with
  | Some (y, x) =>
      if startsWithZero x then Some (y, x)
      else match splitLast "-" y with
           | Some (n, m) => Some (n, m +:+ String "-" x)
           | None => None
           end
  | None => None
  end.

(** The identifiers of the records behind a list of references. *)
Definition idsOf (h : Heap) (items : list Ref) : list (option string) :=
  map (fun r => h !! r ≫= pm_id) items.

(** The identifiers made of the given variation names, in order, and the
    random draws from the [calls]-th on. *)
Definition issuedIds (env : Environment) (calls : nat) (names : list string)
    : list (option string) :=
  imap (fun k name => Some (newId name (random env (calls + k)%nat))) names.

(** What holds of the writer's state all along [add]: one draw was made
    per clone, the folder items carry the identifiers made of the
    variation names and those draws, and they point into the store. *)
Definition issued (env : Environment) (calls : nat)
    (s : WriterState) (names : list string) : Prop :=
  randomCalls s = (calls + List.length names)%nat
  /\ idsOf (heap s) (variationFolder s) = issuedIds env calls names
  /\ Forall (fun r => (r < List.length (heap s))%nat) (variationFolder s).

(** *** Further vocabulary *)

Definition isStatusCode (a : Assertion) : bool :=
  match a with StatusCodeTest _ => true | _ => false end.

Definition isResponseTime (a : Assertion) : bool :=
  match a with ResponseTimeTest _ => true | _ => false end.

Definition isHeader (a : Assertion) : bool :=
  match a with HeaderTest _ => true | _ => false end.

(** The header names declared under the responses whose status code lies
    in the success range. *)
Definition successHeaders (oaOperation : OasMappedOperation) : list string :=
  flat_map (fun e => default [] (headers (snd e)))
    (List.filter (fun e => successCode (fst e)) (declaredResponses oaOperation)).

(** Two rules with the same seven checks. *)
Definition sameChecks (a b : ContractTestConfig) : Prop :=
  statusSuccess a = statusSuccess b
  /\ statusCode a = statusCode b
  /\ responseTime a = responseTime b
  /\ contentType a = contentType b
  /\ jsonBody a = jsonBody b
  /\ schemaValidation a = schemaValidation b
  /\ headersPresent a = headersPresent b.

(** [after] is [before] with further assertions and nothing else changed. *)
Definition extends (before after : PostmanMappedOperation) : Prop :=
  exists added, after = addTests before added.

(** The assertions a list of content tests gives a record: one per
    content test that has [responseBodyTests]. *)
Definition bodyContentTests (tests : list ContentTestConfig) : list Assertion :=
  flat_map
    (fun contentTest =>
       match responseBodyTests contentTest with
       | Some t => [BodyContentTest t]
       | None => []
       end)
    tests.

(** The key under which a document declares the response with status
    code [n]: its decimal numeral. *)
Definition statusKey (n : nat) : string :=
  NilEmpty.string_of_uint (Nat.to_uint n).

(** The variations of the steps of a scenario whose operation identifier
    the collection knows, in step order and, within a step, in the order
    of the step. *)
Definition scenarioVariations (parser : PostmanParser)
    (steps : list IntegrationStep) : list VariationConfig :=
  flat_map
    (fun step =>
       match getOperationById parser (st_openApiOperationId step) with
       | Some _ => variations step
       | None => []
       end)
    steps.

(** What holds of the store and of the folder all along [add], started
    on the store [h]: the store is [h] followed by [n] clones and the
    folder holds the references to those clones, in order. *)
Definition grown (h : list PostmanMappedOperation) (s : WriterState) (n : nat)
    : Prop :=
  (exists clones, heap s = h ++ clones /\ List.length clones = n)
  /\ variationFolder s = seq (List.length h) n.

(** *** The seven check kinds *)

Inductive CheckKind :=
| KStatusSuccess
| KStatusCode
| KResponseTime
| KContentType
| KJsonBody
| KSchemaValidation
| KHeadersPresent.

(** The property of a contract test under which a kind is configured. *)
Definition kindName (k : CheckKind) : string :=
  match k with
  | KStatusSuccess => "statusSuccess"
  | KStatusCode => "statusCode"
  | KResponseTime => "responseTime"
  | KContentType => "contentType"
  | KJsonBody => "jsonBody"
  | KSchemaValidation => "schemaValidation"
  | KHeadersPresent => "headersPresent"
  end.

(** The value a rule has for a kind, looked up as the code does. *)
Definition checkOf (contractTest : ContractTestConfig) (k : CheckKind)
    : option TestType :=
  getTestTypeFromContractTests contractTest (kindName k).

(** The assertions of a kind. *)
Definition isKind (k : CheckKind) : Assertion -> bool :=
  match k with
  | KStatusSuccess => isStatusSuccess
  | KStatusCode => isStatusCode
  | KResponseTime => isResponseTime
  | KContentType => isContentType
  | KJsonBody => isJsonBody
  | KSchemaValidation => isJsonSchema
  | KHeadersPresent => isHeader
  end.

(** The number of places of a contract operation at which a kind fires:
    the responses in the success range for the three status kinds, and
    under those responses the named content types, the content types named
    [application/json], the named content types that declare a schema,
    and the named headers. *)
Definition occasions (k : CheckKind) (oaOperation : OasMappedOperation) : nat :=
  match k with
  | KStatusSuccess | KStatusCode | KResponseTime =>
      List.length
        (List.filter (fun e => successCode (fst e))
           (declaredResponses oaOperation))
  | KContentType =>
      List.length (List.filter named (successContent oaOperation))
  | KJsonBody =>
      List.length (List.filter isJson (successContent oaOperation))
  | KSchemaValidation =>
      List.length
        (List.filter (fun e => named e && declaresSchema e)
           (successContent oaOperation))
  | KHeadersPresent =>
      List.length
        (List.filter (fun name => negb (String.eqb name ""))
           (successHeaders oaOperation))
  end.

(** *** A run of the integration writer *)

(** [add] called for each scenario of a list in turn, on one writer: the
    writer, the store and the count of random draws after the last call. *)
Definition addAll (env : Environment) (this : IntegrationTestWriter)
    (scenarios : list IntegrationTestConfig)
    (h : list PostmanMappedOperation) (calls : nat)
    : IntegrationTestWriter * list PostmanMappedOperation * nat :=
  fold_left (fun st scenario => add env st.1.1 scenario st.1.2 st.2)
    scenarios (this, h, calls).

(** The clones a scenario asks for: for each step whose operation
    identifier the collection knows, in step order, the reference to the
    source record with each variation of the step, in the step's order. *)
Definition scenarioClones (parser : PostmanParser)
    (steps : list IntegrationStep) : list (nat * VariationConfig) :=
  flat_map
    (fun step =>
       match getOperationById parser (st_openApiOperationId step) with
       | Some r => map (fun v => (r, v)) (variations step)
       | None => []
       end)
    steps.

(** The clones a run asks for, scenario after scenario. *)
Definition runClones (parser : PostmanParser)
    (scenarios : list IntegrationTestConfig) : list (nat * VariationConfig) :=
  flat_map (fun scenario => scenarioClones parser (operations scenario))
    scenarios.

(** ** Sample data *)

Module Sample.

Definition enabled : TestType :=
  {| tt_excludeForOperations := None; tt_param := None |}.

Definition enabledExcept (ops : list string) : TestType :=
  {| tt_excludeForOperations := Some ops; tt_param := None |}.

(** A rule with every check kind enabled and no exclusion. *)
Definition allChecks : ContractTestConfig :=
  {| ct_openApiOperation := Some "GET::/pets";
     ct_openApiOperationId := None;
     ct_excludeForOperations := None;
     statusSuccess := Some enabled;
     statusCode := Some {| tt_excludeForOperations := None; tt_param := Some 200 |};
     responseTime := Some {| tt_excludeForOperations := None; tt_param := Some 300 |};
     contentType := Some enabled;
     jsonBody := Some enabled;
     schemaValidation := Some enabled;
     headersPresent := Some enabled |}.

(** The same rule with the status-success check excluded for [opA]. *)
Definition noSuccessForA : ContractTestConfig :=
  {| ct_openApiOperation := Some "GET::/pets";
     ct_openApiOperationId := None;
     ct_excludeForOperations := None;
     statusSuccess := Some (enabledExcept ["opA"]);
     statusCode := statusCode allChecks;
     responseTime := responseTime allChecks;
     contentType := Some enabled;
     jsonBody := Some enabled;
     schemaValidation := Some enabled;
     headersPresent := Some enabled |}.

Definition opA : PostmanMappedOperation :=
  {| pm_id := Some "opA"; pm_name := "List pets";
     pm_pathRef := "GET::/pets"; pm_tests := [] |}.

Definition opB : PostmanMappedOperation :=
  {| pm_id := Some "opB"; pm_name := "List pets (paged)";
     pm_pathRef := "GET::/pets"; pm_tests := [] |}.

(** A record the collection could not give an identifier. *)
Definition opAnonymous : PostmanMappedOperation :=
  {| pm_id := None; pm_name := "Ping";
     pm_pathRef := "GET::/pets"; pm_tests := [] |}.

Definition okResponse : ResponseObject :=
  {| content :=
       Some [("application/json", {| mt_schema := Some "{type: object}" |});
             ("text/plain", {| mt_schema := None |})];
     headers := Some ["X-Rate-Limit"] |}.

Definition bareResponse : ResponseObject :=
  {| content := None; headers := None |}.

Definition petsResponses : list (string * ResponseObject) :=
  [("200", okResponse); ("201", bareResponse); ("404", bareResponse);
   ("default", bareResponse)].

Definition listPets : OasMappedOperation :=
  {| oa_pathRef := "GET::/pets";
     oa_schema := Some {| responses := Some petsResponses |} |}.

(** A contract operation without [responses]. *)
Definition noResponses : OasMappedOperation :=
  {| oa_pathRef := "GET::/pets"; oa_schema := Some {| responses := None |} |}.

(** A 200 response whose only content-type entry has the empty string as
    its name, and declares a schema. *)
Definition unnamedContent : OasMappedOperation :=
  {| oa_pathRef := "GET::/pets";
     oa_schema :=
       Some {| responses :=
                 Some [("200",
                        {| content := Some [("", {| mt_schema := Some "{type: object}" |})];
                           headers := None |})] |} |}.

(** The store of the sample collection and the references to its
    records. *)
Definition store : Heap := [opA; opB; opAnonymous].

Definition petsParser : PostmanParser :=
  {| mappedOperations := [0; 1; 2]%nat;
     getOperationsByPath :=
       fun path => if String.eqb path "GET::/pets" then [0; 1; 2]%nat else [];
     getOperationsByIds :=
       fun ids =>
         (if JS.includes ids (Some "opA") then [0%nat] else [])
         ++ (if JS.includes ids (Some "opB") then [1%nat] else []);
     getOperationById :=
       fun id => if String.eqb id "opA" then Some 0%nat
                 else if String.eqb id "opB" then Some 1%nat
                 else None |}.

Definition petsContract : OpenApiParser :=
  {| getOperationByPath :=
       fun path => if String.eqb path "GET::/pets" then Some listPets else None |}.

(** A test suite without content tests of its own. *)
Definition suite : TestSuite :=
  {| oasParser := petsContract;
     postmanParser := petsParser;
     contractTests := Some [allChecks];
     contentTests := None |}.

(** The rule [allChecks] with a rule-level exclusion list that names no
    record of the collection. *)
Definition excludingOther : ContractTestConfig :=
  {| ct_openApiOperation := Some "GET::/pets";
     ct_openApiOperationId := None;
     ct_excludeForOperations := Some ["opZ"];
     statusSuccess := Some enabled;
     statusCode := statusCode allChecks;
     responseTime := responseTime allChecks;
     contentType := Some enabled;
     jsonBody := Some enabled;
     schemaValidation := Some enabled;
     headersPresent := Some enabled |}.

(** A rule that selects no operation at all. *)
Definition selectsNothing : ContractTestConfig :=
  {| ct_openApiOperation := None;
     ct_openApiOperationId := Some "";
     ct_excludeForOperations := None;
     statusSuccess := Some enabled;
     statusCode := None;
     responseTime := None;
     contentType := None;
     jsonBody := None;
     schemaValidation := None;
     headersPresent := None |}.

Definition bodyTest : ContentTestConfig :=
  {| cn_openApiOperation := Some "GET::/pets";
     cn_openApiOperationId := None;
     cn_excludeForOperations := None;
     responseBodyTests := Some [ {| rbt_key := "[0].id"; rbt_value := "1" |} ] |}.

(** The suite with an empty list of content tests of its own. *)
Definition suiteWithContentTests : TestSuite :=
  {| oasParser := petsContract;
     postmanParser := petsParser;
     contractTests := Some [allChecks];
     contentTests := Some [] |}.

(** An environment whose random draws all come out as 0.5 and whose
    variation injection leaves the clone as it is. *)
Definition stuck : Environment :=
  {| random := fun _ => "0.5";
     injectVariations := fun pm _ _ => pm |}.

(** An environment with the draws 0.1, 0.11, 0.111, ... *)
Fixpoint ones (n : nat) : string :=
  match n with
  | O => "1"
  | Datatypes.S n => String "1" (ones n)
  end.

Definition counting : Environment :=
  {| random := fun n => "0." +:+ ones n;
     injectVariations := fun pm _ _ => pm |}.

Definition happy : VariationConfig :=
  {| vr_name := "happy"; vr_settings := [] |}.

Definition unauthorized : VariationConfig :=
  {| vr_name := "unauthorized"; vr_settings := [] |}.

(** A scenario whose first step names an operation the collection does
    not have. *)
Definition scenario : IntegrationTestConfig :=
  {| it_name := "pets flow";
     operations :=
       [ {| st_openApiOperationId := "opMissing"; variations := [happy] |};
         {| st_openApiOperationId := "opA"; variations := [happy; unauthorized] |};
         {| st_openApiOperationId := "opB"; variations := [happy] |} ] |}.

Definition writer : IntegrationTestWriter :=
  {| testSuite := suite;
     integrationTestFolderName := "Integration tests";
     integrationTestCollection := [] |}.

(** The rule [allChecks] with the content-type check excluded for
    [opA]. *)
Definition noContentTypeForA : ContractTestConfig :=
  {| ct_openApiOperation := Some "GET::/pets";
     ct_openApiOperationId := None;
     ct_excludeForOperations := None;
     statusSuccess := Some enabled;
     statusCode := statusCode allChecks;
     responseTime := responseTime allChecks;
     contentType := Some (enabledExcept ["opA"]);
     jsonBody := Some enabled;
     schemaValidation := Some enabled;
     headersPresent := Some enabled |}.

(** The rule [allChecks] with an empty rule-level exclusion list. *)
Definition excludingNone : ContractTestConfig :=
  {| ct_openApiOperation := Some "GET::/pets";
     ct_openApiOperationId := Some "opB";
     ct_excludeForOperations := Some [];
     statusSuccess := Some enabled;
     statusCode := statusCode allChecks;
     responseTime := responseTime allChecks;
     contentType := Some enabled;
     jsonBody := Some enabled;
     schemaValidation := Some enabled;
     headersPresent := Some enabled |}.

(** A rule every check of which excludes [opA]. *)
Definition nothingForA : ContractTestConfig :=
  {| ct_openApiOperation := Some "GET::/pets";
     ct_openApiOperationId := None;
     ct_excludeForOperations := None;
     statusSuccess := Some (enabledExcept ["opA"]);
     statusCode := Some (enabledExcept ["opA"]);
     responseTime := Some (enabledExcept ["opA"]);
     contentType := Some (enabledExcept ["opA"]);
     jsonBody := Some (enabledExcept ["opA"]);
     schemaValidation := Some (enabledExcept ["opA"]);
     headersPresent := Some (enabledExcept ["opA"]) |}.

(** A record of another path, which the sample contract does not know. *)
Definition opOwners : PostmanMappedOperation :=
  {| pm_id := Some "listOwners"; pm_name := "List owners";
     pm_pathRef := "GET::/owners"; pm_tests := [] |}.

Definition mixedStore : list PostmanMappedOperation := [opA; opOwners].

(** A content test without [responseBodyTests]. *)
Definition idleContentTest : ContentTestConfig :=
  {| cn_openApiOperation := Some "GET::/pets";
     cn_openApiOperationId := None;
     cn_excludeForOperations := None;
     responseBodyTests := None |}.

(** A content test whose [responseBodyTests] is the empty array and whose
    exclusion list names [opA]. *)
Definition emptyContentTest : ContentTestConfig :=
  {| cn_openApiOperation := Some "GET::/pets";
     cn_openApiOperationId := None;
     cn_excludeForOperations := Some ["opA"];
     responseBodyTests := Some [] |}.

(** A stand-in for [assignCollectionVariables]: it records the counter it
    was given and returns the next one. *)
Definition countingAssign : AssignCollectionVariables :=
  fun pm _ n =>
    (appendTest
       (StatusCodeTest {| tt_excludeForOperations := None;
                          tt_param := Some (Z.of_nat n) |}) pm,
     Datatypes.S n).

Definition assignToken : AssignVariablesConfig :=
  {| av_openApiOperation := Some "GET::/pets";
     av_openApiOperationId := None;
     av_excludeForOperations := None;
     collectionVariables := Some ["token"] |}.

(** A configuration without [tests]. *)
Definition bareOptions : TestSuiteOptions :=
  {| opt_oasParser := petsContract;
     opt_postmanParser := petsParser;
     opt_config := Some {| cfg_tests := None; assignVariables := None |} |}.

(** A collection whose only record has an identifier of the form of a
    clone identifier, and a scenario that clones it. *)
Definition opClash : PostmanMappedOperation :=
  {| pm_id := Some "happy-0.5"; pm_name := "List pets";
     pm_pathRef := "GET::/pets"; pm_tests := [] |}.

Definition clashStore : list PostmanMappedOperation := [opClash].

Definition clashParser : PostmanParser :=
  {| mappedOperations := [0%nat];
     getOperationsByPath :=
       fun path => if String.eqb path "GET::/pets" then [0%nat] else [];
     getOperationsByIds :=
       fun ids => if JS.includes ids (Some "happy-0.5") then [0%nat] else [];
     getOperationById :=
       fun id => if String.eqb id "happy-0.5" then Some 0%nat else None |}.

Definition clashWriter : IntegrationTestWriter :=
  {| testSuite :=
       {| oasParser := petsContract;
          postmanParser := clashParser;
          contractTests := None;
          contentTests := None |};
     integrationTestFolderName := "Integration tests";
     integrationTestCollection := [] |}.

Definition clashScenario : IntegrationTestConfig :=
  {| it_name := "clash";
     operations :=
       [ {| st_openApiOperationId := "happy-0.5"; variations := [happy] |} ] |}.

(** A second scenario on the sample collection. *)
Definition secondScenario : IntegrationTestConfig :=
  {| it_name := "owners flow";
     operations :=
       [ {| st_openApiOperationId := "opB"; variations := [happy] |};
         {| st_openApiOperationId := "opMissing"; variations := [unauthorized] |} ] |}.

End Sample.

(** * Properties *)

(** ** Records under injection *)

Section AddTests.

Variable pm : PostmanMappedOperation.

Lemma addTests_nil : addTests pm [] = pm.
Proof. destruct pm; unfold addTests; simpl. by rewrite app_nil_r. Qed.

Lemma addTests_app l1 l2 : addTests (addTests pm l1) l2 = addTests pm (l1 ++ l2).
Proof. unfold addTests; simpl. by rewrite app_assoc. Qed.

Lemma appendTest_addTests a l : appendTest a (addTests pm l) = addTests pm (l ++ [a]).
Proof. unfold appendTest, addTests; simpl. by rewrite app_assoc. Qed.

Lemma inOperations_addTests l ops :
  inOperations (addTests pm l) ops = inOperations pm ops.
Proof. reflexivity. Qed.

Lemma checkApplies_addTests l opt :
  checkApplies opt (addTests pm l) = checkApplies opt pm.
Proof. reflexivity. Qed.

(** A loop whose every turn adds assertions adds their concatenation. *)
Lemma fold_left_addTests {A} (f : PostmanMappedOperation -> A -> PostmanMappedOperation)
    (g : A -> list Assertion) :
  (forall l a, f (addTests pm l) a = addTests pm (l ++ g a)) ->
  forall xs l, fold_left f xs (addTests pm l) = addTests pm (l ++ flat_map g xs).
Proof.
  intros Hf xs. induction xs as [|x xs IH]; intros l; simpl.
  - by rewrite app_nil_r.
  - rewrite Hf, IH. by rewrite app_assoc.
Qed.

End AddTests.

Lemma optTest_add pm l (b : bool) a :
  (if b then appendTest a (addTests pm l) else addTests pm l)
  = addTests pm (l ++ optTest b a).
Proof.
  destruct b; simpl.
  - apply appendTest_addTests.
  - by rewrite app_nil_r.
Qed.

Lemma getTestType_fields ct :
  getTestTypeFromContractTests ct "statusSuccess" = statusSuccess ct
  /\ getTestTypeFromContractTests ct "statusCode" = statusCode ct
  /\ getTestTypeFromContractTests ct "responseTime" = responseTime ct
  /\ getTestTypeFromContractTests ct "contentType" = contentType ct
  /\ getTestTypeFromContractTests ct "jsonBody" = jsonBody ct
  /\ getTestTypeFromContractTests ct "schemaValidation" = schemaValidation ct
  /\ getTestTypeFromContractTests ct "headersPresent" = headersPresent ct.
Proof. repeat split; reflexivity. Qed.

Lemma checkApplies_truthy opt pm :
  JS.truthy opt && checkApplies opt pm = checkApplies opt pm.
Proof. by destruct opt. Qed.

Lemma injectContentEntry_tests ct oa pm l e :
  injectContentEntry oa (contentType ct) (jsonBody ct) (schemaValidation ct)
    (addTests pm l) e
  = addTests pm (l ++ contentEntryTests ct pm e).
Proof.
  destruct e as [name media]. unfold injectContentEntry, contentEntryTests, named.
  simpl. destruct (String.eqb name ""); simpl.
  { by rewrite app_nil_r. }
  unfold testResponseContentType, testResponseJsonBody, testResponseJsonSchema.
  rewrite !checkApplies_addTests, optTest_add.
  rewrite !checkApplies_addTests, optTest_add.
  replace (JS.truthy (jsonBody ct) && String.eqb name "application/json"
           && checkApplies (jsonBody ct) pm)
    with (isJson (name, media) && checkApplies (jsonBody ct) pm)
    by (unfold isJson; simpl; destruct (jsonBody ct), (String.eqb name _); reflexivity).
  rewrite <- !app_assoc.
  destruct (mt_schema media) as [schema|], (schemaValidation ct) as [o|];
    simpl; rewrite ?app_nil_r; try reflexivity.
  change (negb (inOperations pm (tt_excludeForOperations o)))
    with (checkApplies (Some o) pm).
  by rewrite optTest_add, <- !app_assoc.
Qed.

Lemma injectHeaderEntry_tests ct oa pm l name :
  injectHeaderEntry oa (headersPresent ct) (addTests pm l) name
  = addTests pm (l ++ headerTests ct pm name).
Proof.
  unfold injectHeaderEntry, headerTests, testResponseHeader. simpl.
  destruct (String.eqb name ""); simpl.
  { by rewrite app_nil_r. }
  by rewrite checkApplies_addTests, optTest_add.
Qed.

Lemma inRange_successCode code :
  inRange (JS.parseInt code) 200 302 = successCode code.
Proof. reflexivity. Qed.

Lemma injectResponse_tests ct oa pm l e :
  injectResponse ct oa (addTests pm l) e
  = addTests pm (l ++ responseTests ct pm e).
Proof.
  destruct e as [code resp]. unfold injectResponse, responseTests.
  rewrite inRange_successCode. simpl.
  destruct (successCode code); simpl.
  2: { by rewrite app_nil_r. }
  destruct (getTestType_fields ct) as (-> & -> & -> & -> & -> & -> & ->).
  unfold testResponseStatusSuccess, testResponseStatusCode, testResponseTime.
  rewrite checkApplies_addTests, optTest_add.
  set (l1 := l ++ optTest _ StatusSuccessTest).
  assert (E2 : forall l',
    match statusCode ct with
    | Some o => if checkApplies (statusCode ct) (addTests pm l')
                then appendTest (StatusCodeTest o) (addTests pm l')
                else addTests pm l'
    | None => addTests pm l'
    end
    = addTests pm (l' ++ match statusCode ct with
                         | Some o => optTest (checkApplies (statusCode ct) pm)
                                       (StatusCodeTest o)
                         | None => []
                         end)).
  { intros l'. destruct (statusCode ct).
    - by rewrite checkApplies_addTests, optTest_add.
    - by rewrite app_nil_r. }
  rewrite E2. clear E2.
  set (l2 := l1 ++ _).
  assert (E3 : forall l',
    match responseTime ct with
    | Some o => if checkApplies (responseTime ct) (addTests pm l')
                then appendTest (ResponseTimeTest o) (addTests pm l')
                else addTests pm l'
    | None => addTests pm l'
    end
    = addTests pm (l' ++ match responseTime ct with
                         | Some o => optTest (checkApplies (responseTime ct) pm)
                                       (ResponseTimeTest o)
                         | None => []
                         end)).
  { intros l'. destruct (responseTime ct).
    - by rewrite checkApplies_addTests, optTest_add.
    - by rewrite app_nil_r. }
  rewrite E3. clear E3.
  set (l3 := l2 ++ _).
  assert (E4 :
    match content resp with
    | Some entries =>
        fold_left (injectContentEntry oa (contentType ct) (jsonBody ct)
                     (schemaValidation ct)) entries (addTests pm l3)
    | None => addTests pm l3
    end
    = addTests pm (l3 ++ flat_map (contentEntryTests ct pm)
                           (default [] (content resp)))).
  { destruct (content resp) as [entries|]; simpl.
    - apply fold_left_addTests. intros. apply injectContentEntry_tests.
    - by rewrite app_nil_r. }
  rewrite E4. clear E4.
  set (l4 := l3 ++ _).
  assert (E5 :
    match headers resp with
    | Some names =>
        fold_left (injectHeaderEntry oa (headersPresent ct)) names (addTests pm l4)
    | None => addTests pm l4
    end
    = addTests pm (l4 ++ flat_map (headerTests ct pm)
                           (default [] (headers resp)))).
  { destruct (headers resp) as [names|]; simpl.
    - apply fold_left_addTests. intros. apply injectHeaderEntry_tests.
    - by rewrite app_nil_r. }
  rewrite E5. subst l4 l3 l2 l1.
  by rewrite <- !app_assoc.
Qed.

(** [injectContractTests] returns the record it was given with, after the
    assertions it had, the contributions of the declared responses in
    their order. *)
Lemma injectContractTests_tests pm oa ct :
  injectContractTests pm oa ct
  = addTests pm (flat_map (responseTests ct pm) (declaredResponses oa)).
Proof.
  unfold injectContractTests, declaredResponses.
  destruct (oa_schema oa) as [s|]; simpl.
  2: { by rewrite addTests_nil. }
  destruct (responses s) as [rs|]; simpl.
  2: { by rewrite addTests_nil. }
  rewrite <- (addTests_nil pm) at 1.
  rewrite (fold_left_addTests pm _ (responseTests ct pm)).
  - reflexivity.
  - intros. apply injectResponse_tests.
Qed.

(** ** Counting assertions of one kind *)

Lemma countKind_app k l1 l2 :
  countKind k (l1 ++ l2) = (countKind k l1 + countKind k l2)%nat.
Proof. unfold countKind. by rewrite List.filter_app, List.length_app. Qed.

Lemma countKind_optTest k (b : bool) a :
  countKind k (optTest b a) = if b && k a then 1%nat else 0%nat.
Proof. unfold countKind. destruct b; simpl; [destruct (k a)|]; reflexivity. Qed.

Lemma countKind_flat_map {A} k (g : A -> list Assertion) (p : A -> bool) (n : nat) xs :
  (forall x, countKind k (g x) = if p x then n else 0%nat) ->
  countKind k (flat_map g xs) = (n * List.length (List.filter p xs))%nat.
Proof.
  intros Hg. induction xs as [|x xs IH]; simpl.
  - by rewrite Nat.mul_0_r.
  - rewrite countKind_app, IH, Hg. destruct (p x); simpl; lia.
Qed.

Lemma countKind_flat_map_0 {A} k (g : A -> list Assertion) xs :
  (forall x, countKind k (g x) = 0%nat) -> countKind k (flat_map g xs) = 0%nat.
Proof.
  intros Hg.
  rewrite (countKind_flat_map k g (fun _ => false) 0 xs); [reflexivity|].
  intros x. by rewrite Hg.
Qed.

Lemma countTests_addTests k pm l :
  countTests k (addTests pm l) = (countTests k pm + countKind k l)%nat.
Proof. unfold countTests; simpl. apply countKind_app. Qed.

(** Case analysis on every check of a contribution, then computation. *)
Ltac count_cases :=
  unfold contentEntryTests, headerTests, named, isJson; simpl;
  repeat match goal with
         | |- context [checkApplies ?o ?pm] => destruct (checkApplies o pm)
         | |- context [String.eqb ?a ?b] => destruct (String.eqb a b)
         | |- context [mt_schema ?m] => destruct (mt_schema m)
         end;
  reflexivity.

Lemma content_no_statusSuccess ct pm e :
  countKind isStatusSuccess (contentEntryTests ct pm e) = 0%nat.
Proof. destruct e as [name media]. count_cases. Qed.

Lemma header_no_statusSuccess ct pm name :
  countKind isStatusSuccess (headerTests ct pm name) = 0%nat.
Proof. count_cases. Qed.

Lemma response_statusSuccess ct pm e :
  countKind isStatusSuccess (responseTests ct pm e)
  = if successCode (fst e) && checkApplies (statusSuccess ct) pm
    then 1%nat else 0%nat.
Proof.
  unfold responseTests. destruct (successCode (fst e)); [|reflexivity].
  rewrite !countKind_app, countKind_optTest.
  rewrite (countKind_flat_map_0 _ _ _ (content_no_statusSuccess ct pm)).
  rewrite (countKind_flat_map_0 _ _ _ (header_no_statusSuccess ct pm)).
  simpl. rewrite andb_true_r.
  destruct (statusCode ct), (responseTime ct);
    rewrite ?countKind_optTest; simpl; rewrite ?andb_false_r;
    destruct (checkApplies (statusSuccess ct) pm); reflexivity.
Qed.

Lemma declaredResponses_withResponses oa rs :
  declaredResponses (withResponses oa rs) = rs.
Proof. reflexivity. Qed.

(** ** Contract-test injection *)

(** C1.  When the contract operation declares responses and the rule
    enables the status-success check with no exclusion applying to the
    request record, [injectContractTests] adds exactly one status-success
    assertion per declared response whose status code lies in [200, 302);
    the assertions the record had stay in front, and what is injected for
    the responses up to any point stays in front of what the later
    responses add. *)
Theorem statusSuccess_once_per_success_response pm oa ct s rs o :
  oa_schema oa = Some s ->
  responses s = Some rs ->
  statusSuccess ct = Some o ->
  inOperations pm (tt_excludeForOperations o) = false ->
  (countTests isStatusSuccess (injectContractTests pm oa ct)
   = countTests isStatusSuccess pm
     + List.length (List.filter (fun e => successCode (fst e)) rs))%nat
  /\ (exists added,
        pm_tests (injectContractTests pm oa ct) = pm_tests pm ++ added)
  /\ (forall earlier later, rs = earlier ++ later ->
        exists added,
          pm_tests (injectContractTests pm oa ct)
          = pm_tests (injectContractTests pm (withResponses oa earlier) ct)
            ++ added).
Proof.
  intros Hs Hrs Hss Hex.
  assert (Hd : declaredResponses oa = rs).
  { unfold declaredResponses. by rewrite Hs; simpl; rewrite Hrs. }
  assert (Hap : checkApplies (statusSuccess ct) pm = true).
  { rewrite Hss. simpl. by rewrite Hex. }
  rewrite injectContractTests_tests, Hd. repeat split.
  - rewrite countTests_addTests. f_equal.
    rewrite (countKind_flat_map _ _ (fun e => successCode (fst e)) 1).
    + lia.
    + intros e. rewrite response_statusSuccess, Hap. by rewrite andb_true_r.
  - eexists. reflexivity.
  - intros earlier later ->.
    rewrite injectContractTests_tests, declaredResponses_withResponses.
    exists (flat_map (responseTests ct pm) later). simpl.
    by rewrite flat_map_app, app_assoc.
Qed.

Lemma statusSuccess_once_per_success_response_witness :
  (countTests isStatusSuccess
     (injectContractTests Sample.opA Sample.listPets Sample.allChecks)
   = countTests isStatusSuccess Sample.opA
     + List.length (List.filter (fun e => successCode (fst e)) Sample.petsResponses))%nat
  /\ (exists added,
        pm_tests (injectContractTests Sample.opA Sample.listPets Sample.allChecks)
        = pm_tests Sample.opA ++ added)
  /\ (forall earlier later, Sample.petsResponses = earlier ++ later ->
        exists added,
          pm_tests (injectContractTests Sample.opA Sample.listPets Sample.allChecks)
          = pm_tests (injectContractTests Sample.opA
                        (withResponses Sample.listPets earlier) Sample.allChecks)
            ++ added).
Proof.
  apply (statusSuccess_once_per_success_response Sample.opA Sample.listPets
           Sample.allChecks {| responses := Some Sample.petsResponses |}
           Sample.petsResponses Sample.enabled); reflexivity.
Defined.

Lemma successCode_false code :
  (forall n, JS.parseInt code = Some n -> ~ (200 <= n < 302)) ->
  successCode code = false.
Proof.
  intros H. unfold successCode. destruct (JS.parseInt code) as [n|]; [|reflexivity].
  specialize (H n eq_refl).
  destruct (200 <=? n) eqn:E1, (n <? 302) eqn:E2; try reflexivity.
  exfalso. apply H. lia.
Qed.

(** C2.  A declared response whose status code is outside [200, 302)
    receives nothing, whatever the rule enables: the loop turn for it
    returns the record as it was, and the result of [injectContractTests]
    is the one obtained without that response. *)
Theorem no_tests_outside_success_range pm oa ct earlier code response later :
  (forall n, JS.parseInt code = Some n -> ~ (200 <= n < 302)) ->
  injectResponse ct oa pm (code, response) = pm
  /\ injectContractTests pm
       (withResponses oa (earlier ++ (code, response) :: later)) ct
     = injectContractTests pm (withResponses oa (earlier ++ later)) ct.
Proof.
  intros H. apply successCode_false in H. split.
  - unfold injectResponse. by rewrite inRange_successCode, H.
  - rewrite !injectContractTests_tests, !declaredResponses_withResponses.
    rewrite !flat_map_app. simpl. unfold responseTests at 2. simpl.
    by rewrite H.
Qed.

Lemma no_tests_outside_success_range_witness :
  injectResponse Sample.allChecks Sample.listPets Sample.opA
    ("404", Sample.okResponse) = Sample.opA
  /\ injectContractTests Sample.opA
       (withResponses Sample.listPets
          ([("200", Sample.okResponse)] ++ ("404", Sample.okResponse) :: []))
       Sample.allChecks
     = injectContractTests Sample.opA
         (withResponses Sample.listPets ([("200", Sample.okResponse)] ++ []))
         Sample.allChecks.
Proof.
  apply (no_tests_outside_success_range Sample.opA Sample.listPets
           Sample.allChecks [("200", Sample.okResponse)] "404"
           Sample.okResponse []).
  intros n Hn. vm_compute in Hn. inversion Hn. lia.
Defined.

(** C6.  When the contract operation's schema declares no responses
    ([oaOperation.schema?.responses] is undefined), [injectContractTests]
    returns the request record it was given, unchanged. *)
Theorem no_responses_unchanged pm oa ct :
  oa_schema oa ≫= responses = None ->
  injectContractTests pm oa ct = pm.
Proof.
  intros H. unfold injectContractTests.
  destruct (oa_schema oa) as [s|]; [|reflexivity].
  simpl in H. by rewrite H.
Qed.

Lemma no_responses_unchanged_witness :
  injectContractTests Sample.opA Sample.noResponses Sample.allChecks = Sample.opA.
Proof.
  apply (no_responses_unchanged Sample.opA Sample.noResponses Sample.allChecks).
  reflexivity.
Defined.

(** ** Content-type, JSON-body and schema checks *)

Lemma countKind_optTest_0 k (b : bool) a :
  k a = false -> countKind k (optTest b a) = 0%nat.
Proof. intros H. rewrite countKind_optTest, H. by rewrite andb_false_r. Qed.

Lemma filter_andb_const {A} (p : A -> bool) (b : bool) xs :
  List.length (List.filter (fun x => p x && b) xs)
  = if b then List.length (List.filter p xs) else 0%nat.
Proof.
  destruct b.
  - f_equal. apply List.filter_ext. intros x. by rewrite andb_true_r.
  - induction xs as [|x xs IH]; simpl; [reflexivity|].
    by rewrite andb_false_r.
Qed.

Section ContentKinds.

Variable k : Assertion -> bool.
Variable p : string * MediaTypeObject -> bool.
Variable b : bool.
Variable ct : ContractTestConfig.
Variable pm : PostmanMappedOperation.

Hypothesis k_statusSuccess : k StatusSuccessTest = false.
Hypothesis k_statusCode : forall o, k (StatusCodeTest o) = false.
Hypothesis k_responseTime : forall o, k (ResponseTimeTest o) = false.
Hypothesis k_header : forall n, k (HeaderTest n) = false.
Hypothesis k_entry :
  forall e, countKind k (contentEntryTests ct pm e)
            = if p e && b then 1%nat else 0%nat.

Lemma countKind_response e :
  countKind k (responseTests ct pm e)
  = if successCode (fst e)
    then (if b then List.length (List.filter p (default [] (content (snd e))))
          else 0%nat)
    else 0%nat.
Proof using All.
  unfold responseTests. destruct (successCode (fst e)); [|reflexivity].
  rewrite !countKind_app, (countKind_optTest_0 _ _ _ k_statusSuccess).
  assert (E1 : countKind k match statusCode ct with
                           | Some o => optTest (checkApplies (statusCode ct) pm)
                                         (StatusCodeTest o)
                           | None => []
                           end = 0%nat).
  { destruct (statusCode ct); [|reflexivity]. by apply countKind_optTest_0. }
  assert (E2 : countKind k match responseTime ct with
                           | Some o => optTest (checkApplies (responseTime ct) pm)
                                         (ResponseTimeTest o)
                           | None => []
                           end = 0%nat).
  { destruct (responseTime ct); [|reflexivity]. by apply countKind_optTest_0. }
  rewrite E1, E2.
  rewrite (countKind_flat_map_0 k (headerTests ct pm)).
  2: { intros n. unfold headerTests. by apply countKind_optTest_0. }
  rewrite (countKind_flat_map k _ (fun e => p e && b) 1 _ k_entry).
  rewrite filter_andb_const. destruct b; lia.
Qed.

Lemma countKind_responses rs :
  countKind k (flat_map (responseTests ct pm) rs)
  = if b
    then List.length
           (List.filter p
              (flat_map (fun e => default [] (content (snd e)))
                 (List.filter (fun e => successCode (fst e)) rs)))
    else 0%nat.
Proof using All.
  induction rs as [|e rs IH]; simpl.
  - by destruct b.
  - rewrite countKind_app, IH, countKind_response.
    destruct (successCode (fst e)); simpl; [|reflexivity].
    rewrite List.filter_app, List.length_app. by destruct b.
Qed.

End ContentKinds.

Lemma entry_contentType ct pm e :
  countKind isContentType (contentEntryTests ct pm e)
  = if named e && checkApplies (contentType ct) pm then 1%nat else 0%nat.
Proof. destruct e as [name media]. count_cases. Qed.

Lemma isJson_named e : isJson e = true -> named e = true.
Proof.
  unfold isJson, named. intros H. apply String.eqb_eq in H. by rewrite H.
Qed.

Lemma entry_jsonBody ct pm e :
  countKind isJsonBody (contentEntryTests ct pm e)
  = if isJson e && checkApplies (jsonBody ct) pm then 1%nat else 0%nat.
Proof.
  destruct (isJson e) eqn:Hj.
  - unfold contentEntryTests. rewrite (isJson_named _ Hj), Hj.
    destruct (checkApplies (contentType ct) pm), (checkApplies (jsonBody ct) pm),
      (mt_schema (snd e)), (checkApplies (schemaValidation ct) pm); reflexivity.
  - unfold contentEntryTests. rewrite Hj.
    destruct (named e), (checkApplies (contentType ct) pm),
      (mt_schema (snd e)), (checkApplies (schemaValidation ct) pm); reflexivity.
Qed.

Lemma entry_jsonSchema ct pm e :
  countKind isJsonSchema (contentEntryTests ct pm e)
  = if (named e && declaresSchema e) && checkApplies (schemaValidation ct) pm
    then 1%nat else 0%nat.
Proof. destruct e as [name media]. unfold declaresSchema. count_cases. Qed.

(** C5, as the code has it.  Over the content-type entries declared under
    the responses in the success range, and for a check kind that is
    enabled with the record not excluded from it: the content-type check
    fires once per entry whose name is not the empty string, the
    JSON-body check once per entry named exactly [application/json], and
    the schema check once per named entry that declares a schema.  A kind
    that is not enabled, or from which the record is excluded, fires for
    no entry. *)
Theorem content_checks_per_named_entry pm oa ct :
  let result := injectContractTests pm oa ct in
  let entries := successContent oa in
  let fires (opt : option TestType) (n : nat) : nat :=
    if checkApplies opt pm then n else 0%nat in
  (countTests isContentType result
   = countTests isContentType pm
     + fires (contentType ct) (List.length (List.filter named entries)))%nat
  /\ (countTests isJsonBody result
      = countTests isJsonBody pm
        + fires (jsonBody ct) (List.length (List.filter isJson entries)))%nat
  /\ (countTests isJsonSchema result
      = countTests isJsonSchema pm
        + fires (schemaValidation ct)
            (List.length
               (List.filter (fun e => named e && declaresSchema e) entries)))%nat.
Proof.
  simpl. rewrite injectContractTests_tests, !countTests_addTests.
  unfold successContent. repeat split; f_equal.
  - apply countKind_responses; try reflexivity. apply entry_contentType.
  - apply countKind_responses; try reflexivity. apply entry_jsonBody.
  - apply countKind_responses; try reflexivity. apply entry_jsonSchema.
Qed.

(** C5 as stated fails on an entry whose name is the empty string: the
    rule enables the content-type and schema checks, the 200 response
    declares one content-type entry, with a schema, and nothing is
    injected.  It also fails for a record that the enabled content-type
    check excludes: the 200 response declares two content types and no
    content-type assertion is added. *)
Lemma content_checks_skip_unnamed_entry :
  (checkApplies (contentType Sample.allChecks) Sample.opA = true
   /\ List.length (successContent Sample.unnamedContent) = 1%nat
   /\ pm_tests
        (injectContractTests Sample.opA Sample.unnamedContent
           (withoutStatusSuccess Sample.allChecks))
      = [StatusCodeTest {| tt_excludeForOperations := None; tt_param := Some 200 |};
         ResponseTimeTest {| tt_excludeForOperations := None; tt_param := Some 300 |}]
   /\ countTests isContentType
        (injectContractTests Sample.opA Sample.unnamedContent Sample.allChecks)
      <> (countTests isContentType Sample.opA
          + List.length (successContent Sample.unnamedContent))%nat)
  /\ (JS.truthy (contentType Sample.noContentTypeForA) = true
      /\ List.length (successContent Sample.listPets) = 2%nat
      /\ countTests isContentType
           (injectContractTests Sample.opA Sample.listPets Sample.noContentTypeForA)
         <> (countTests isContentType Sample.opA
             + List.length (successContent Sample.listPets))%nat).
Proof. split_and!; try reflexivity; vm_compute; discriminate. Qed.

(** ** Exclusion per check kind *)

Lemma statusSuccess_count pm oa ct :
  countTests isStatusSuccess (injectContractTests pm oa ct)
  = (countTests isStatusSuccess pm
     + if checkApplies (statusSuccess ct) pm
       then List.length
              (List.filter (fun e => successCode (fst e)) (declaredResponses oa))
       else 0)%nat.
Proof.
  rewrite injectContractTests_tests, countTests_addTests. f_equal.
  rewrite (countKind_flat_map _ _
             (fun e => successCode (fst e) && checkApplies (statusSuccess ct) pm) 1).
  - rewrite filter_andb_const. destruct (checkApplies _ pm); lia.
  - intros e. apply response_statusSuccess.
Qed.

(** A record excluded from the status-success check is treated as by the
    rule without that check. *)
Lemma excluded_statusSuccess pm oa ct :
  checkApplies (statusSuccess ct) pm = false ->
  injectContractTests pm oa ct
  = injectContractTests pm oa (withoutStatusSuccess ct).
Proof.
  intros H. rewrite !injectContractTests_tests. f_equal.
  apply flat_map_ext. intros e. unfold responseTests. simpl.
  by rewrite H.
Qed.

Lemma inOperations_id pm ex a :
  pm_id pm = Some a -> In a ex -> inOperations pm (Some ex) = true.
Proof.
  intros Hid Hin. unfold inOperations. rewrite Hid. simpl.
  apply orb_true_iff. left. apply existsb_exists.
  exists a. split; [done|]. apply String.eqb_refl.
Qed.

Section Batch.

Variable this : TestSuite.
Variable oaOperation : option OasMappedOperation.
Variable contractTest : ContractTestConfig.

Let step := contractTestOperation this oaOperation contractTest.

Lemma contractTestOperation_length (h : Heap) r :
  List.length (step h r) = List.length h.
Proof.
  unfold step, contractTestOperation.
  destruct (h !! r) as [pm|]; [|reflexivity].
  destruct (JS.orElse _ _); [|reflexivity]. apply length_insert.
Qed.

Lemma contractTestOperation_other (h : Heap) r r' :
  r <> r' -> step h r !! r' = h !! r'.
Proof.
  intros Hne. unfold step, contractTestOperation.
  destruct (h !! r) as [pm|]; [|reflexivity].
  destruct (JS.orElse _ _); [|reflexivity].
  by apply list_lookup_insert_ne.
Qed.

Lemma contractTestOperation_same (h : Heap) r pm operation :
  h !! r = Some pm ->
  JS.orElse oaOperation (getOperationByPath (oasParser this) (pm_pathRef pm))
  = Some operation ->
  step h r !! r = Some (injectContractTests pm operation contractTest).
Proof.
  intros Hr Ho. unfold step, contractTestOperation. rewrite Hr, Ho.
  apply list_lookup_insert_eq. by eapply lookup_lt_Some.
Qed.

Lemma batch_untouched ops (h : Heap) r :
  r ∉ ops -> fold_left step ops h !! r = h !! r.
Proof.
  revert h. induction ops as [|x ops IH]; intros h Hnot; simpl; [done|].
  apply not_elem_of_cons in Hnot as [Hne Hnot].
  rewrite IH by done. by apply contractTestOperation_other.
Qed.

(** In a batch that names each record once, every record ends up as
    [injectContractTests] leaves it. *)
Lemma batch_lookup ops (h : Heap) r pm operation :
  NoDup ops -> r ∈ ops ->
  h !! r = Some pm ->
  JS.orElse oaOperation (getOperationByPath (oasParser this) (pm_pathRef pm))
  = Some operation ->
  fold_left step ops h !! r
  = Some (injectContractTests pm operation contractTest).
Proof.
  intros Hnd. revert h. induction Hnd as [|x ops Hx Hnd IH]; intros h Hin Hr Ho.
  - by apply elem_of_nil in Hin.
  - simpl. apply elem_of_cons in Hin as [->|Hin].
    + rewrite batch_untouched by done. by apply contractTestOperation_same.
    + apply IH; [done| |done].
      rewrite contractTestOperation_other; [done|].
      intros ->. contradiction.
Qed.

End Batch.

(** ** Resolving the operations of a rule *)

Lemma filter_sublist {A} (f : A -> bool) (l : list A) :
  sublist (List.filter f l) l.
Proof.
  induction l as [|x l IH]; simpl.
  - constructor.
  - destruct (f x); by constructor.
Qed.

Lemma includes_In ex x :
  JS.includes ex x = true <-> exists s, x = Some s /\ In s ex.
Proof.
  unfold JS.includes. destruct x as [s|].
  - rewrite existsb_exists. split.
    + intros (y & Hy & E). apply String.eqb_eq in E. subst. by exists y.
    + intros (y & [= ->] & Hy). exists y. split; [done|]. apply String.eqb_refl.
  - split; [discriminate|]. by intros (s & ? & _).
Qed.

Lemma truthyStr_Some s : s <> "" -> JS.truthyStr (Some s) = true.
Proof.
  intros Hs. simpl. destruct (String.eqb_spec s ""); [contradiction|reflexivity].
Qed.

Section Resolution.

Context {S : Type} `{OperationSetting S}.
Variable this : TestSuite.
Variable h : Heap.
Variable settings : S.

Lemma keepOperation_spec ex r :
  keepOperation h ex r = true <->
  exists pm, h !! r = Some pm
             /\ JS.truthyStr (pm_id pm) = true
             /\ JS.includes ex (pm_id pm) = false
             /\ JS.includes ex (Some (pm_pathRef pm)) = false.
Proof.
  unfold keepOperation. destruct (h !! r) as [pm|].
  - rewrite !andb_true_iff, !negb_true_iff. split.
    + intros [[? ?] ?]. by exists pm.
    + intros (pm' & [= <-] & ? & ? & ?). done.
  - split; [discriminate|]. by intros (pm & ? & _).
Qed.

Lemma getOperationsFromSetting_filtered ex :
  excludeForOperations settings = Some ex ->
  getOperationsFromSetting this h settings
  = List.filter (keepOperation h ex)
      (resolveOperations (postmanParser this) settings).
Proof. intros E. unfold getOperationsFromSetting. by rewrite E. Qed.

(** Under any exclusion list, a record without a truthy identifier is
    dropped. *)
Lemma unidentified_dropped ex r pm :
  excludeForOperations settings = Some ex ->
  h !! r = Some pm ->
  JS.truthyStr (pm_id pm) = false ->
  ~ In r (getOperationsFromSetting this h settings).
Proof.
  intros E Hr Hid Hin. rewrite (getOperationsFromSetting_filtered ex E) in Hin.
  apply List.filter_In in Hin as [_ Hk].
  apply keepOperation_spec in Hk as (pm' & Hr' & Hid' & _).
  rewrite Hr in Hr'. injection Hr' as <-. congruence.
Qed.

End Resolution.

Lemma truthyStr_iff o :
  JS.truthyStr o = true <-> exists s, o = Some s /\ s <> "".
Proof.
  destruct o as [s|]; simpl.
  - destruct (String.eqb_spec s ""); simpl; split.
    + discriminate.
    + intros (s' & [= <-] & Hne). contradiction.
    + intros _. by exists s.
    + done.
  - split; [discriminate|]. by intros (s & ? & _).
Qed.

Lemma includes_false ex x :
  JS.includes ex (Some x) = false <-> ~ In x ex.
Proof.
  rewrite <- not_true_iff_false, includes_In. split.
  - intros Hn Hin. apply Hn. by exists x.
  - intros Hn (s & [= <-] & Hin). contradiction.
Qed.

(** C3, as the code has it.  [getOperationsFromSetting] is a total
    function (no exception arises).  It resolves by the path reference
    when the setting has one, else by the operation identifier when it
    has one, else to the empty sequence; with no exclusion list the
    resolved sequence is returned as it is; with one, the result is the
    subsequence of the resolved records that have a non-empty identifier
    and whose identifier and path reference are both absent from the
    list: every record the list names is filtered out, and so is every
    record without identifier. *)
Theorem getOperationsFromSetting_resolution {S} `{OperationSetting S}
    (this : TestSuite) (h : Heap) (settings : S) :
  let parser := postmanParser this in
  let result := getOperationsFromSetting this h settings in
  exists resolved,
    (forall op, openApiOperation settings = Some op -> op <> "" ->
       resolved = getOperationsByPath parser op)
    /\ (forall id, JS.truthyStr (openApiOperation settings) = false ->
          openApiOperationId settings = Some id -> id <> "" ->
          resolved = getOperationsByIds parser [id])
    /\ (JS.truthyStr (openApiOperation settings) = false ->
        JS.truthyStr (openApiOperationId settings) = false ->
        resolved = [] /\ result = [])
    /\ sublist result resolved
    /\ (excludeForOperations settings = None -> result = resolved)
    /\ (forall ex r pm,
          excludeForOperations settings = Some ex ->
          h !! r = Some pm ->
          (exists id, pm_id pm = Some id /\ In id ex) \/ In (pm_pathRef pm) ex ->
          ~ In r result)
    /\ (forall ex r,
          excludeForOperations settings = Some ex ->
          (In r result
           <-> In r resolved
               /\ exists pm id,
                    h !! r = Some pm /\ pm_id pm = Some id /\ id <> ""
                    /\ ~ In id ex /\ ~ In (pm_pathRef pm) ex)).
Proof.
  intros parser result.
  exists (resolveOperations parser settings).
  assert (Hsub : sublist result (resolveOperations parser settings)).
  { subst result. unfold getOperationsFromSetting.
    destruct (excludeForOperations settings); [apply filter_sublist|done]. }
  split_and!.
  - intros op E Hop. unfold resolveOperations.
    by rewrite E, (truthyStr_Some op Hop).
  - intros id Ep E Hid. unfold resolveOperations.
    by rewrite Ep, E, (truthyStr_Some id Hid).
  - intros Ep Ei. unfold resolveOperations in *. rewrite Ep, Ei in *.
    split; [done|]. by apply sublist_nil_r in Hsub.
  - done.
  - intros E. subst result. unfold getOperationsFromSetting. by rewrite E.
  - intros ex r pm E Hr Hex Hin. subst result.
    rewrite (getOperationsFromSetting_filtered this h settings ex E) in Hin.
    apply List.filter_In in Hin as [_ Hk].
    apply keepOperation_spec in Hk as (pm' & Hr' & _ & Hni & Hnp).
    rewrite Hr in Hr'. injection Hr' as <-.
    destruct Hex as [(id & Hid & Hin)|Hin].
    + assert (JS.includes ex (pm_id pm) = true); [|congruence].
      apply includes_In. by exists id.
    + assert (JS.includes ex (Some (pm_pathRef pm)) = true); [|congruence].
      apply includes_In. by exists (pm_pathRef pm).
  - intros ex r E. subst result parser.
    rewrite (getOperationsFromSetting_filtered this h settings ex E).
    rewrite List.filter_In, keepOperation_spec. split.
    + intros [Hin (pm & Hr & Hid & Hni & Hnp)]. split; [done|].
      apply truthyStr_iff in Hid as (id & Hid & Hne).
      exists pm, id. rewrite Hid in Hni.
      apply includes_false in Hni, Hnp. done.
    + intros [Hin (pm & id & Hr & Hid & Hne & Hni & Hnp)]. split; [done|].
      exists pm. rewrite Hid. split_and!; [done| | |].
      * apply truthyStr_iff. by exists id.
      * by apply includes_false.
      * by apply includes_false.
Qed.

(** C3 as stated fails on a record without identifier: the rule resolves
    to the three sample records, its exclusion list names neither the
    identifier nor the path reference of any of them, and the record
    without identifier is filtered out all the same. *)
Lemma unnamed_record_filtered_out :
  resolveOperations (postmanParser Sample.suite) Sample.excludingOther
  = [0; 1; 2]%nat
  /\ excludeForOperations Sample.excludingOther = Some ["opZ"]
  /\ Sample.store !! 2%nat = Some Sample.opAnonymous
  /\ inOperations Sample.opAnonymous (Some ["opZ"]) = false
  /\ getOperationsFromSetting Sample.suite Sample.store Sample.excludingOther
     = [0; 1]%nat
  /\ ~ In 2%nat
        (getOperationsFromSetting Sample.suite Sample.store Sample.excludingOther).
Proof.
  split_and!; try reflexivity.
  change (~ In 2%nat [0; 1]%nat). simpl. lia.
Qed.

(** C9.  With a non-empty exclusion list in the setting, a resolved record
    whose identifier is missing or the empty string is not returned by
    [getOperationsFromSetting], whether or not the list names it; in
    [generateContractTests] the rule then leaves that record as it was. *)
Theorem unidentified_records_dropped
    (this : TestSuite) (h : Heap) (ct : ContractTestConfig) ex r pm oaOperation :
  excludeForOperations ct = Some ex ->
  ex <> [] ->
  h !! r = Some pm ->
  JS.truthyStr (pm_id pm) = false ->
  ~ In r (getOperationsFromSetting this h ct)
  /\ generateContractTests this None oaOperation (Some [ct]) h !! r = Some pm.
Proof.
  intros E _ Hr Hid.
  pose proof (unidentified_dropped this h ct ex r pm E Hr Hid) as Hnot.
  split; [done|].
  unfold generateContractTests. simpl.
  rewrite batch_untouched; [done|].
  by rewrite list_elem_of_In.
Qed.

Lemma unidentified_records_dropped_witness :
  ~ In 2%nat (getOperationsFromSetting Sample.suite Sample.store Sample.excludingOther)
  /\ generateContractTests Sample.suite None None
       (Some [Sample.excludingOther]) Sample.store !! 2%nat
     = Some Sample.opAnonymous.
Proof.
  apply (unidentified_records_dropped Sample.suite Sample.store
           Sample.excludingOther ["opZ"] 2%nat Sample.opAnonymous None);
    [reflexivity|discriminate|reflexivity|reflexivity].
Defined.

(** The same happens under an empty exclusion list (an empty array is
    truthy), and the path reference is used although the rule also names
    an operation identifier. *)
Example unidentified_dropped_by_empty_list :
  resolveOperations Sample.petsParser Sample.excludingNone = [0; 1; 2]%nat
  /\ getOperationsFromSetting Sample.suite Sample.store Sample.excludingNone
     = [0; 1]%nat.
Proof. split; reflexivity. Qed.

(** A rule without path reference and with an empty operation identifier
    selects nothing. *)
Example selectsNothing_empty :
  getOperationsFromSetting Sample.suite Sample.store Sample.selectsNothing = [].
Proof. reflexivity. Qed.

(** ** Content tests *)

(** C10.  When the suite has no content tests of its own,
    [injectContentTests] returns the parser's mapped operations and leaves
    every record as it was, whatever operations and content tests the
    caller supplies. *)
Theorem injectContentTests_ignores_argument
    (this : TestSuite) pmOperations tests (h : Heap) :
  contentTests this = None ->
  injectContentTests this pmOperations tests h
  = (h, mappedOperations (postmanParser this)).
Proof. intros E. unfold injectContentTests. by rewrite E. Qed.

Lemma injectContentTests_ignores_argument_witness :
  injectContentTests Sample.suite (Some [0%nat]) (Some [Sample.bodyTest])
    Sample.store
  = (Sample.store, mappedOperations (postmanParser Sample.suite)).
Proof.
  apply (injectContentTests_ignores_argument Sample.suite (Some [0%nat])
           (Some [Sample.bodyTest]) Sample.store).
  reflexivity.
Defined.

(** The same call on a suite that has content tests of its own, even an
    empty list of them, does use the caller's argument. *)
Example injectContentTests_uses_argument :
  (fst (injectContentTests Sample.suiteWithContentTests (Some [0%nat])
          (Some [Sample.bodyTest]) Sample.store)) !! 0%nat
  = Some (testResponseBodyContent [ {| rbt_key := "[0].id"; rbt_value := "1" |} ]
            Sample.opA).
Proof. reflexivity. Qed.

(** ** Integration scenarios *)

(** C7.  A step whose operation identifier resolves to no request record
    changes nothing, and the scenario goes on: [add] gives what it gives
    for the scenario without that step, the earlier and the later steps
    being processed alike. *)
Theorem unresolved_step_skipped env this name earlier step later h calls :
  getOperationById (postmanParser (testSuite this)) (st_openApiOperationId step)
  = None ->
  (forall s, addStep env (testSuite this) s step = s)
  /\ add env this {| it_name := name; operations := earlier ++ step :: later |}
       h calls
     = add env this {| it_name := name; operations := earlier ++ later |}
         h calls.
Proof.
  intros Hnone.
  assert (Hskip : forall s, addStep env (testSuite this) s step = s).
  { intros s. unfold addStep. by rewrite Hnone. }
  split; [done|].
  unfold add. simpl. rewrite !fold_left_app. simpl. by rewrite Hskip.
Qed.

Lemma unresolved_step_skipped_witness :
  (forall s,
     addStep Sample.counting (testSuite Sample.writer) s
       {| st_openApiOperationId := "opMissing"; variations := [Sample.happy] |}
     = s)
  /\ add Sample.counting Sample.writer
       {| it_name := "pets flow";
          operations :=
            [] ++ {| st_openApiOperationId := "opMissing";
                     variations := [Sample.happy] |}
               :: [ {| st_openApiOperationId := "opA";
                       variations := [Sample.happy; Sample.unauthorized] |} ] |}
       Sample.store 0%nat
     = add Sample.counting Sample.writer
         {| it_name := "pets flow";
            operations :=
              [] ++ [ {| st_openApiOperationId := "opA";
                         variations := [Sample.happy; Sample.unauthorized] |} ] |}
         Sample.store 0%nat.
Proof.
  apply (unresolved_step_skipped Sample.counting Sample.writer "pets flow" []
           {| st_openApiOperationId := "opMissing"; variations := [Sample.happy] |}
           [ {| st_openApiOperationId := "opA";
                variations := [Sample.happy; Sample.unauthorized] |} ]
           Sample.store 0%nat).
  reflexivity.
Defined.

(** The sample scenario: the first step is skipped, the two later steps
    give three clones, in step and variation order. *)
Example scenario_clones :
  let '(writer', h', calls') :=
    add Sample.counting Sample.writer Sample.scenario Sample.store 0%nat in
  integrationTestCollection writer'
  = [ {| ig_name := "pets flow"; ig_items := [3; 4; 5]%nat |} ]
  /\ idsOf h' [3; 4; 5]%nat
     = [Some "happy-0.1"; Some "unauthorized-0.11"; Some "happy-0.111"]
  /\ calls' = 3%nat.
Proof. vm_compute. repeat split. Qed.

(** ** Clone identifiers *)

#[local] Arguments String.append !_ _ / : simpl nomatch.

Lemma append_assoc (a b c : string) : (a +:+ b) +:+ c = a +:+ (b +:+ c).
Proof. induction a as [|x a IH]; simpl; [reflexivity|]. by f_equal. Qed.

Lemma newId_unfold name draw : newId name draw = name +:+ String "-" draw.
Proof. reflexivity. Qed.

Lemma splitFirst_eq c s l r :
  splitFirst c s = Some (l, r) -> s = l +:+ String c r.
Proof.
  revert l r. induction s as [|a s IH]; intros l r; simpl; [discriminate|].
  destruct (Ascii.eqb_spec a c) as [->|_].
  - by intros [= <- <-].
  - destruct (splitFirst c s) as [[l' r']|]; [|discriminate].
    intros [= <- <-]. simpl. by rewrite (IH l' r').
Qed.

Lemma splitLast_app c name rest :
  splitLast c rest = None ->
  splitLast c (name +:+ String c rest) = Some (name, rest).
Proof.
  intros Hr. induction name as [|a name IH]; simpl.
  - by rewrite Hr, Ascii.eqb_refl.
  - by rewrite IH.
Qed.

Lemma digit_not_hyphen d : isDigit d = true -> Ascii.eqb d "-" = false.
Proof.
  intros Hd. destruct (Ascii.eqb_spec d "-") as [->|_]; [discriminate|reflexivity].
Qed.

Lemma digit_not_e d : isDigit d = true -> Ascii.eqb d "e" = false.
Proof.
  intros Hd. destruct (Ascii.eqb_spec d "e") as [->|_]; [discriminate|reflexivity].
Qed.

Lemma allDigits_no_hyphen s : allDigits s = true -> splitLast "-" s = None.
Proof.
  induction s as [|a s IH]; simpl; [reflexivity|].
  intros [Ha Hs]%andb_true_iff. by rewrite (IH Hs), (digit_not_hyphen a Ha).
Qed.

Lemma allDigits_e_no_hyphen s :
  allDigits s = true -> splitLast "-" (s +:+ "e") = None.
Proof.
  induction s as [|a s IH]; simpl; [reflexivity|].
  intros [Ha Hs]%andb_true_iff. by rewrite (IH Hs), (digit_not_hyphen a Ha).
Qed.

Lemma digits_allDigits s : digits s = true -> allDigits s = true.
Proof. unfold digits. by intros [_ ?]%andb_true_iff. Qed.

Lemma mantissa_e_no_hyphen m :
  mantissaOk m = true -> splitLast "-" (m +:+ "e") = None.
Proof.
  destruct m as [|d [|p f]]; simpl; [discriminate| |].
  - intros Hd. by rewrite (digit_not_hyphen d Hd).
  - intros H. apply andb_true_iff in H as [H Hf].
    apply andb_true_iff in H as [Hd Hp]. apply Ascii.eqb_eq in Hp.
    subst p. rewrite (allDigits_e_no_hyphen f); [|by apply digits_allDigits].
    simpl. by rewrite (digit_not_hyphen d Hd).
Qed.

Lemma fraction_shape s :
  String.eqb s "0" || fractionOk s = true ->
  startsWithZero s = true /\ splitLast "-" s = None.
Proof.
  intros H. apply orb_true_iff in H as [H|H].
  - apply String.eqb_eq in H. by subst s.
  - destruct s as [|z [|p f]]; simpl in H; try discriminate.
    apply andb_true_iff in H as [H Hf].
    apply andb_true_iff in H as [Hz Hp].
    apply Ascii.eqb_eq in Hz, Hp. subst z p. split; [reflexivity|].
    simpl. by rewrite (allDigits_no_hyphen f (digits_allDigits f Hf)).
Qed.

Lemma exponent_shape x :
  exponentOk x = true ->
  exists n, x = String "-" n /\ startsWithZero n = false
            /\ splitLast "-" n = None.
Proof.
  destruct x as [|m [|d n]]; simpl; try discriminate.
  intros H. apply andb_true_iff in H as [H Hn].
  apply andb_true_iff in H as [H Hz].
  apply andb_true_iff in H as [Hm Hd].
  apply Ascii.eqb_eq in Hm. subst m.
  exists (String d n). split_and!; [reflexivity| |].
  - simpl. by apply negb_true_iff.
  - simpl. by rewrite (allDigits_no_hyphen n Hn), (digit_not_hyphen d Hd).
Qed.

(** A clone identifier determines the variation name and the draw it was
    made of. *)
Lemma readId_newId name draw :
  drawOk draw = true -> readId (newId name draw) = Some (name, draw).
Proof.
  unfold drawOk. intros H. rewrite newId_unfold. unfold readId.
  destruct (splitFirst "e" draw) as [[m x]|] eqn:Hsplit.
  - apply andb_true_iff in H as [Hm Hx].
    apply exponent_shape in Hx as (n & -> & Hz & Hn).
    apply splitFirst_eq in Hsplit. subst draw.
    replace (name +:+ String "-" (m +:+ String "e" (String "-" n)))
      with ((name +:+ String "-" (m +:+ "e")) +:+ String "-" n).
    2: { rewrite append_assoc. simpl. do 2 f_equal.
         rewrite append_assoc. reflexivity. }
    rewrite (splitLast_app _ _ _ Hn), Hz.
    rewrite (splitLast_app _ _ _ (mantissa_e_no_hyphen m Hm)).
    do 2 f_equal. rewrite append_assoc. reflexivity.
  - apply fraction_shape in H as [Hz Hn].
    by rewrite (splitLast_app _ _ _ Hn), Hz.
Qed.

Lemma newId_inj name1 draw1 name2 draw2 :
  drawOk draw1 = true -> drawOk draw2 = true ->
  newId name1 draw1 = newId name2 draw2 ->
  name1 = name2 /\ draw1 = draw2.
Proof.
  intros H1 H2 E.
  pose proof (readId_newId name1 draw1 H1) as R1.
  pose proof (readId_newId name2 draw2 H2) as R2.
  rewrite E, R2 in R1. by injection R1 as -> ->.
Qed.

Section CloneIds.

Variable env : Environment.
Variable calls : nat.

Hypothesis injectVariations_id :
  forall pm oa v, pm_id (injectVariations env pm oa v) = pm_id pm.

Lemma idsOf_grow (h : Heap) items pm :
  Forall (fun r => (r < List.length h)%nat) items ->
  idsOf (h ++ [pm]) items = idsOf h items.
Proof.
  unfold idsOf. induction 1 as [|r items Hr _ IH]; simpl; [reflexivity|].
  by rewrite IH, lookup_app_l.
Qed.

Lemma addVariation_issued pm oa s v names :
  issued env calls s names ->
  issued env calls (addVariation env pm oa s v) (names ++ [vr_name v]).
Proof using injectVariations_id.
  intros (Hc & Hids & Hin). unfold issued, addVariation. simpl. split_and!.
  - rewrite Hc, List.length_app. simpl. lia.
  - unfold idsOf in *. rewrite map_app. simpl.
    fold (idsOf (heap s ++ [injectVariations env
            (clone pm (newId (vr_name v) (random env (randomCalls s))) (vr_name v))
            oa v]) (variationFolder s)).
    rewrite idsOf_grow by done. unfold idsOf. rewrite Hids.
    unfold issuedIds. rewrite imap_app. simpl. f_equal.
    rewrite list_lookup_middle by reflexivity. simpl.
    rewrite injectVariations_id. simpl.
    by rewrite Hc, Nat.add_0_r.
  - apply Forall_app. split.
    + eapply Forall_impl; [exact Hin|]. intros r Hr. simpl in *.
      rewrite List.length_app. simpl. lia.
    + constructor; [|constructor]. rewrite List.length_app. simpl. lia.
Qed.

Lemma addVariations_issued pm oa vs s names :
  issued env calls s names ->
  exists names',
    issued env calls (fold_left (addVariation env pm oa) vs s) (names ++ names').
Proof using injectVariations_id.
  revert s names. induction vs as [|v vs IH]; intros s names Hs; simpl.
  - exists []. by rewrite app_nil_r.
  - destruct (IH _ _ (addVariation_issued pm oa s v names Hs)) as [names' H'].
    exists (vr_name v :: names'). by rewrite <- app_assoc in H'.
Qed.

Lemma addStep_issued suite s step names :
  issued env calls s names ->
  exists names', issued env calls (addStep env suite s step) (names ++ names').
Proof using injectVariations_id.
  intros Hs. unfold addStep.
  destruct (getOperationById _ _) as [r|].
  2: { exists []. by rewrite app_nil_r. }
  destruct (heap s !! r) as [pm|].
  2: { exists []. by rewrite app_nil_r. }
  by apply addVariations_issued.
Qed.

Lemma addSteps_issued suite steps s names :
  issued env calls s names ->
  exists names',
    issued env calls (fold_left (addStep env suite) steps s) (names ++ names').
Proof using injectVariations_id.
  revert s names. induction steps as [|step steps IH]; intros s names Hs; simpl.
  - exists []. by rewrite app_nil_r.
  - destruct (addStep_issued suite s step names Hs) as [n1 H1].
    destruct (IH _ _ H1) as [n2 H2].
    exists (n1 ++ n2). by rewrite app_assoc.
Qed.

Lemma issuedIds_NoDup names :
  (forall i, (calls <= i < calls + List.length names)%nat ->
             drawOk (random env i) = true) ->
  (forall i j, (calls <= i < j)%nat -> (j < calls + List.length names)%nat ->
               random env i <> random env j) ->
  NoDup (issuedIds env calls names).
Proof.
  intros Hok Hdiff. apply NoDup_alt. intros i j x Hi Hj.
  unfold issuedIds in Hi, Hj. rewrite list_lookup_imap in Hi, Hj.
  destruct (names !! i) as [ni|] eqn:Ei; [|discriminate].
  destruct (names !! j) as [nj|] eqn:Ej; [|discriminate].
  apply lookup_lt_Some in Ei, Ej. simpl in Hi, Hj.
  rewrite <- Hj in Hi. injection Hi as Hi.
  apply newId_inj in Hi as [_ Hd]; [|apply Hok; lia..].
  destruct (Nat.lt_trichotomy i j) as [Hlt|[->|Hlt]]; [|done|].
  - exfalso. apply (Hdiff (calls + i)%nat (calls + j)%nat); [lia|lia|done].
  - exfalso. apply (Hdiff (calls + j)%nat (calls + i)%nat); [lia|lia|done].
Qed.

End CloneIds.

(** * Further properties *)

(** ** The sequence of injected assertions *)

(** X1.  [injectContractTests] keeps the assertions the record had and
    appends, response by response in the order in which [Object.entries]
    lists the responses (integer-like keys first, ascending, whatever
    their order in the document; the list the model is given) and only
    for status codes in the success range: the status-success,
    status-code and response-time assertions, then for each named content
    type its content-type, JSON-body and schema assertions, then one
    assertion per named header.  Identifier, name and path reference stay
    as they were. *)
Theorem injected_assertions_in_order pm oa ct :
  pm_tests (injectContractTests pm oa ct)
  = pm_tests pm ++ flat_map (responseTests ct pm) (declaredResponses oa)
  /\ pm_id (injectContractTests pm oa ct) = pm_id pm
  /\ pm_name (injectContractTests pm oa ct) = pm_name pm
  /\ pm_pathRef (injectContractTests pm oa ct) = pm_pathRef pm.
Proof. by rewrite injectContractTests_tests. Qed.

Lemma filter_flat_map_nil {A} k (g : A -> list Assertion) xs :
  (forall x, countKind k (g x) = 0%nat) -> List.filter k (flat_map g xs) = [].
Proof.
  intros Hg. apply List.length_zero_iff_nil.
  by apply (countKind_flat_map_0 k g xs).
Qed.

Lemma content_no_statusCode ct pm e :
  countKind isStatusCode (contentEntryTests ct pm e) = 0%nat.
Proof. destruct e as [name media]. count_cases. Qed.

Lemma header_no_statusCode ct pm name :
  countKind isStatusCode (headerTests ct pm name) = 0%nat.
Proof. count_cases. Qed.

Lemma content_no_responseTime ct pm e :
  countKind isResponseTime (contentEntryTests ct pm e) = 0%nat.
Proof. destruct e as [name media]. count_cases. Qed.

Lemma header_no_responseTime ct pm name :
  countKind isResponseTime (headerTests ct pm name) = 0%nat.
Proof. count_cases. Qed.

Lemma content_no_header ct pm e :
  countKind isHeader (contentEntryTests ct pm e) = 0%nat.
Proof. destruct e as [name media]. count_cases. Qed.

Lemma response_statusCode ct pm o e :
  statusCode ct = Some o ->
  List.filter isStatusCode (responseTests ct pm e)
  = if successCode (fst e) && checkApplies (statusCode ct) pm
    then [StatusCodeTest o] else [].
Proof.
  intros Ho. unfold responseTests.
  destruct (successCode (fst e)); [|reflexivity].
  rewrite !List.filter_app.
  rewrite (filter_flat_map_nil _ _ _ (content_no_statusCode ct pm)).
  rewrite (filter_flat_map_nil _ _ _ (header_no_statusCode ct pm)).
  rewrite Ho. simpl.
  destruct (checkApplies (statusSuccess ct) pm), (responseTime ct) as [t|];
    simpl;
    destruct (negb (inOperations pm (tt_excludeForOperations o)));
    try destruct (negb (inOperations pm (tt_excludeForOperations t)));
    reflexivity.
Qed.

Lemma response_responseTime ct pm o e :
  responseTime ct = Some o ->
  List.filter isResponseTime (responseTests ct pm e)
  = if successCode (fst e) && checkApplies (responseTime ct) pm
    then [ResponseTimeTest o] else [].
Proof.
  intros Ho. unfold responseTests.
  destruct (successCode (fst e)); [|reflexivity].
  rewrite !List.filter_app.
  rewrite (filter_flat_map_nil _ _ _ (content_no_responseTime ct pm)).
  rewrite (filter_flat_map_nil _ _ _ (header_no_responseTime ct pm)).
  rewrite Ho. simpl.
  destruct (checkApplies (statusSuccess ct) pm), (statusCode ct) as [t|];
    simpl;
    destruct (negb (inOperations pm (tt_excludeForOperations o)));
    try destruct (negb (inOperations pm (tt_excludeForOperations t)));
    reflexivity.
Qed.

Lemma filter_responses_repeat k ct pm a (b : bool) rs :
  (forall e, List.filter k (responseTests ct pm e)
             = if successCode (fst e) && b then [a] else []) ->
  List.filter k (flat_map (responseTests ct pm) rs)
  = if b
    then repeat a (List.length (List.filter (fun e => successCode (fst e)) rs))
    else [].
Proof.
  intros Hk. induction rs as [|e rs IH]; simpl.
  - by destruct b.
  - rewrite List.filter_app, IH, Hk.
    destruct (successCode (fst e)), b; reflexivity.
Qed.

(** X2.  When the rule has a status-code check that applies to the
    record, [injectContractTests] adds one status-code assertion per
    declared response in the success range, each carrying the rule's
    status-code value (not the response's own code); likewise for the
    response-time check.  A check from which the record is excluded adds
    none. *)
Theorem statusCode_and_responseTime_per_success_response pm oa ct :
  let result := injectContractTests pm oa ct in
  let n :=
    List.length
      (List.filter (fun e => successCode (fst e)) (declaredResponses oa)) in
  (forall o, statusCode ct = Some o ->
     List.filter isStatusCode (pm_tests result)
     = List.filter isStatusCode (pm_tests pm)
       ++ if inOperations pm (tt_excludeForOperations o) then []
          else repeat (StatusCodeTest o) n)
  /\ (forall o, responseTime ct = Some o ->
        List.filter isResponseTime (pm_tests result)
        = List.filter isResponseTime (pm_tests pm)
          ++ if inOperations pm (tt_excludeForOperations o) then []
             else repeat (ResponseTimeTest o) n).
Proof.
  simpl. rewrite injectContractTests_tests. simpl. split; intros o Ho.
  - rewrite List.filter_app. f_equal.
    rewrite (filter_responses_repeat _ ct pm (StatusCodeTest o)
               (checkApplies (statusCode ct) pm)).
    + rewrite Ho. simpl. by destruct (inOperations pm _).
    + intros e. by apply response_statusCode.
  - rewrite List.filter_app. f_equal.
    rewrite (filter_responses_repeat _ ct pm (ResponseTimeTest o)
               (checkApplies (responseTime ct) pm)).
    + rewrite Ho. simpl. by destruct (inOperations pm _).
    + intros e. by apply response_responseTime.
Qed.

Lemma header_count ct pm name :
  countKind isHeader (headerTests ct pm name)
  = if negb (String.eqb name "") && checkApplies (headersPresent ct) pm
    then 1%nat else 0%nat.
Proof. unfold headerTests. rewrite countKind_optTest. by rewrite andb_true_r. Qed.

Lemma response_headers ct pm e :
  countKind isHeader (responseTests ct pm e)
  = if successCode (fst e)
    then (if checkApplies (headersPresent ct) pm
          then List.length
                 (List.filter (fun name => negb (String.eqb name ""))
                    (default [] (headers (snd e))))
          else 0%nat)
    else 0%nat.
Proof.
  unfold responseTests. destruct (successCode (fst e)); [|reflexivity].
  rewrite !countKind_app.
  rewrite (countKind_flat_map_0 _ _ _ (content_no_header ct pm)).
  rewrite (countKind_flat_map isHeader _
             (fun name => negb (String.eqb name "")
                          && checkApplies (headersPresent ct) pm) 1 _
             (header_count ct pm)).
  rewrite filter_andb_const.
  rewrite countKind_optTest_0 by reflexivity.
  assert (E1 : countKind isHeader
                 match statusCode ct with
                 | Some o => optTest (checkApplies (statusCode ct) pm)
                               (StatusCodeTest o)
                 | None => []
                 end = 0%nat).
  { destruct (statusCode ct); [|reflexivity]. by apply countKind_optTest_0. }
  assert (E2 : countKind isHeader
                 match responseTime ct with
                 | Some o => optTest (checkApplies (responseTime ct) pm)
                               (ResponseTimeTest o)
                 | None => []
                 end = 0%nat).
  { destruct (responseTime ct); [|reflexivity]. by apply countKind_optTest_0. }
  rewrite E1, E2. destruct (checkApplies (headersPresent ct) pm); lia.
Qed.

(** X3.  The headers-present check adds one assertion per header name
    other than the empty string declared under the responses in the
    success range, whether or not those responses declare content; it
    adds none when the rule lacks the check or the record is excluded
    from it. *)
Theorem header_check_per_named_header pm oa ct :
  countTests isHeader (injectContractTests pm oa ct)
  = (countTests isHeader pm
     + if checkApplies (headersPresent ct) pm
       then List.length
              (List.filter (fun name => negb (String.eqb name ""))
                 (successHeaders oa))
       else 0)%nat.
Proof.
  rewrite injectContractTests_tests, countTests_addTests. f_equal.
  unfold successHeaders.
  induction (declaredResponses oa) as [|e rs IH]; simpl.
  - by destruct (checkApplies _ pm).
  - rewrite countKind_app, IH, response_headers.
    destruct (successCode (fst e)); simpl; [|reflexivity].
    rewrite List.filter_app, List.length_app.
    by destruct (checkApplies _ pm).
Qed.

Lemma contentEntryTests_none ct pm e :
  checkApplies (contentType ct) pm = false ->
  checkApplies (jsonBody ct) pm = false ->
  checkApplies (schemaValidation ct) pm = false ->
  contentEntryTests ct pm e = [].
Proof.
  intros H1 H2 H3. unfold contentEntryTests. rewrite H1, H2, H3.
  rewrite andb_false_r.
  by destruct (named e), (mt_schema (snd e)).
Qed.

Lemma flat_map_nil {A B} (g : A -> list B) xs :
  (forall x, g x = []) -> flat_map g xs = [].
Proof.
  intros Hg. induction xs as [|x xs IH]; simpl; [reflexivity|].
  by rewrite Hg, IH.
Qed.

(** X4.  When none of the seven checks applies to the record (each is
    either absent from the rule or excludes the record),
    [injectContractTests] returns the record unchanged, whatever the
    contract operation declares. *)
Theorem no_applicable_check_unchanged pm oa ct :
  checkApplies (statusSuccess ct) pm = false ->
  checkApplies (statusCode ct) pm = false ->
  checkApplies (responseTime ct) pm = false ->
  checkApplies (contentType ct) pm = false ->
  checkApplies (jsonBody ct) pm = false ->
  checkApplies (schemaValidation ct) pm = false ->
  checkApplies (headersPresent ct) pm = false ->
  injectContractTests pm oa ct = pm.
Proof.
  intros H1 H2 H3 H4 H5 H6 H7.
  rewrite injectContractTests_tests.
  rewrite flat_map_nil; [apply addTests_nil|].
  intros e. unfold responseTests. rewrite H1, H2, H3.
  rewrite (flat_map_nil (contentEntryTests ct pm)).
  2: { intros x. by apply contentEntryTests_none. }
  rewrite (flat_map_nil (headerTests ct pm)).
  2: { intros x. unfold headerTests. by rewrite H7, andb_false_r. }
  by destruct (successCode (fst e)), (statusCode ct), (responseTime ct).
Qed.

Lemma no_applicable_check_unchanged_witness :
  injectContractTests Sample.opA Sample.listPets Sample.nothingForA = Sample.opA.
Proof.
  apply (no_applicable_check_unchanged Sample.opA Sample.listPets
           Sample.nothingForA); reflexivity.
Defined.

(** ** The store under injection *)

Lemma extends_refl pm : extends pm pm.
Proof. exists []. by rewrite addTests_nil. Qed.

Lemma extends_trans a b c : extends a b -> extends b c -> extends a c.
Proof. intros [l1 ->] [l2 ->]. exists (l1 ++ l2). apply addTests_app. Qed.

Lemma extends_injectContractTests pm oa ct :
  extends pm (injectContractTests pm oa ct).
Proof. eexists. apply injectContractTests_tests. Qed.

Lemma store_extends_refl (h : Heap) : Forall2 extends h h.
Proof. induction h; constructor; [apply extends_refl|done]. Qed.

Lemma store_extends_trans (h1 h2 h3 : Heap) :
  Forall2 extends h1 h2 -> Forall2 extends h2 h3 -> Forall2 extends h1 h3.
Proof.
  intros H12. revert h3. induction H12 as [|a b l1 l2 Hab _ IH]; intros h3 H23.
  - by inversion H23.
  - inversion H23 as [|b' c l2' l3 Hbc H23']; subst.
    constructor; [by eapply extends_trans|by apply IH].
Qed.

Lemma store_extends_insert (h : Heap) r pm pm' :
  h !! r = Some pm -> extends pm pm' -> Forall2 extends h (<[r := pm']> h).
Proof.
  intros Hr He. rewrite <- (list_insert_id h r pm Hr) at 1.
  apply Forall2_insert; [apply store_extends_refl|done].
Qed.

Lemma store_extends_fold {A} (f : Heap -> A -> Heap) xs :
  (forall h x, Forall2 extends h (f h x)) ->
  forall h, Forall2 extends h (fold_left f xs h).
Proof.
  intros Hf. induction xs as [|x xs IH]; intros h; simpl.
  - apply store_extends_refl.
  - eapply store_extends_trans; [apply Hf|apply IH].
Qed.

Lemma contractTestOperation_extends this oa ct (h : Heap) r :
  Forall2 extends h (contractTestOperation this oa ct h r).
Proof.
  unfold contractTestOperation.
  destruct (h !! r) as [pm|] eqn:Hr; [|apply store_extends_refl].
  destruct (JS.orElse _ _) as [operation|]; [|apply store_extends_refl].
  eapply store_extends_insert; [done|apply extends_injectContractTests].
Qed.

Lemma generateContractTests_extends this ops oa tests (h : Heap) :
  Forall2 extends h (generateContractTests this ops oa tests h).
Proof.
  unfold generateContractTests.
  destruct (JS.orElse tests (contractTests this)) as [l|];
    [|apply store_extends_refl].
  apply store_extends_fold. intros h' ct.
  apply store_extends_fold. intros h'' r.
  apply contractTestOperation_extends.
Qed.

Lemma contentTestOperation_extends t (h : Heap) r :
  Forall2 extends h (contentTestOperation t h r).
Proof.
  unfold contentTestOperation.
  destruct (responseBodyTests t) as [b|]; [|apply store_extends_refl].
  apply Forall2_alter_r; [apply store_extends_refl|].
  intros x y Hx Hy Hxy. eapply extends_trans; [exact Hxy|].
  exists [BodyContentTest b]. reflexivity.
Qed.

Lemma injectContentTests_extends this ops tests (h : Heap) :
  Forall2 extends h (injectContentTests this ops tests h).1.
Proof.
  unfold injectContentTests.
  destruct (contentTests this) as [own|]; simpl; [|apply store_extends_refl].
  apply store_extends_fold. intros h' t.
  apply store_extends_fold. intros h'' r.
  apply contentTestOperation_extends.
Qed.

Lemma store_extends_lookup (h h' : Heap) :
  Forall2 extends h h' ->
  List.length h' = List.length h
  /\ forall r pm, h !! r = Some pm ->
       exists added, h' !! r = Some (addTests pm added).
Proof.
  intros H. split.
  - symmetry. by eapply Forall2_length.
  - intros r pm Hr.
    destruct (Forall2_lookup_l _ _ _ _ _ H Hr) as (pm' & Hr' & [added ->]).
    by exists added.
Qed.

(** X5.  Whatever their arguments, [generateContractTests] and
    [injectContentTests] keep the store's records in place: no record is
    added or removed, and every record keeps its identifier, name and
    path reference and the assertions it had, in front of those added. *)
Theorem injection_only_appends this ops oa contractTests_ contentTests_ (h : Heap) :
  let after h' :=
    List.length h' = List.length h
    /\ forall r pm, h !! r = Some pm ->
         exists added, h' !! r = Some (addTests pm added) in
  after (generateContractTests this ops oa contractTests_ h)
  /\ after (injectContentTests this ops contentTests_ h).1.
Proof.
  simpl. split.
  - apply store_extends_lookup, generateContractTests_extends.
  - apply store_extends_lookup, injectContentTests_extends.
Qed.

Lemma keepOperation_extends (h h' : Heap) ex r :
  Forall2 extends h h' -> keepOperation h' ex r = keepOperation h ex r.
Proof.
  intros H. unfold keepOperation.
  apply Forall2_lookup with (i := r) in H.
  destruct H as [pm pm' [added ->]|]; reflexivity.
Qed.

Lemma getOperationsFromSetting_extends {S} `{OperationSetting S}
    this (h h' : Heap) (settings : S) :
  Forall2 extends h h' ->
  getOperationsFromSetting this h' settings
  = getOperationsFromSetting this h settings.
Proof.
  intros He. unfold getOperationsFromSetting.
  destruct (excludeForOperations settings) as [ex|]; [|reflexivity].
  apply List.filter_ext. intros r. by apply keepOperation_extends.
Qed.

(** X6.  Injection does not disturb resolution: after
    [generateContractTests] or [injectContentTests] has run, with whatever
    arguments, [getOperationsFromSetting] resolves every setting to the
    records it resolved it to before. *)
Theorem resolution_stable_under_injection {S} `{OperationSetting S}
    this ops oa contractTests_ contentTests_ (h : Heap) (settings : S) :
  getOperationsFromSetting this
    (generateContractTests this ops oa contractTests_ h) settings
  = getOperationsFromSetting this h settings
  /\ getOperationsFromSetting this
       (injectContentTests this ops contentTests_ h).1 settings
     = getOperationsFromSetting this h settings.
Proof.
  split; apply getOperationsFromSetting_extends.
  - apply generateContractTests_extends.
  - apply injectContentTests_extends.
Qed.

(** ** Batches of [generateContractTests] *)

Lemma responseTests_sameChecks a b pm e :
  sameChecks a b -> responseTests a pm e = responseTests b pm e.
Proof.
  intros (H1 & H2 & H3 & H4 & H5 & H6 & H7).
  unfold responseTests. rewrite H1, H2, H3.
  rewrite (flat_map_ext (contentEntryTests a pm) (contentEntryTests b pm)).
  2: { intros x. unfold contentEntryTests. by rewrite H4, H5, H6. }
  rewrite (flat_map_ext (headerTests a pm) (headerTests b pm)).
  2: { intros x. unfold headerTests. by rewrite H7. }
  reflexivity.
Qed.

Lemma injectContractTests_sameChecks a b pm oa :
  sameChecks a b -> injectContractTests pm oa a = injectContractTests pm oa b.
Proof.
  intros Hab. rewrite !injectContractTests_tests. f_equal.
  apply flat_map_ext. intros e. by apply responseTests_sameChecks.
Qed.

Lemma contractTestOperation_sameChecks this oa a b (h : Heap) r :
  sameChecks a b ->
  contractTestOperation this oa a h r = contractTestOperation this oa b h r.
Proof.
  intros Hab. unfold contractTestOperation.
  destruct (h !! r) as [pm|]; [|reflexivity].
  destruct (JS.orElse _ _) as [operation|]; [|reflexivity].
  by rewrite (injectContractTests_sameChecks a b).
Qed.

Lemma fold_left_ext_all {A B} (f g : A -> B -> A) xs :
  (forall a x, f a x = g a x) -> forall a, fold_left f xs a = fold_left g xs a.
Proof.
  intros Hfg. induction xs as [|x xs IH]; intros a; simpl; [reflexivity|].
  by rewrite Hfg, IH.
Qed.

(** X7.  When the caller passes the operations, a rule's own selection
    plays no part: two lists of rules that agree, rule by rule, on the
    seven checks give the same result, whatever [openApiOperation],
    [openApiOperationId] and rule-level [excludeForOperations] they
    carry. *)
Theorem supplied_operations_ignore_selection
    this ops oa rules rules' (h : Heap) :
  Forall2 sameChecks rules rules' ->
  generateContractTests this (Some ops) oa (Some rules) h
  = generateContractTests this (Some ops) oa (Some rules') h.
Proof.
  intros Hr. unfold generateContractTests. simpl. revert h.
  induction Hr as [|a b l l' Hab _ IH]; intros h; simpl; [reflexivity|].
  rewrite <- IH. f_equal.
  apply fold_left_ext_all. intros h' r.
  by apply contractTestOperation_sameChecks.
Qed.

Lemma supplied_operations_ignore_selection_witness :
  generateContractTests Sample.suite (Some [0; 2]%nat) None
    (Some [Sample.allChecks]) Sample.store
  = generateContractTests Sample.suite (Some [0; 2]%nat) None
      (Some [Sample.excludingOther]) Sample.store.
Proof.
  apply (supplied_operations_ignore_selection Sample.suite [0; 2]%nat None
           [Sample.allChecks] [Sample.excludingOther] Sample.store).
  constructor; [|constructor]. repeat split.
Defined.

Lemma batch_without_contract this ct ops (h : Heap) r pm :
  h !! r = Some pm ->
  getOperationByPath (oasParser this) (pm_pathRef pm) = None ->
  fold_left (contractTestOperation this None ct) ops h !! r = Some pm.
Proof.
  intros Hr Hnone. revert h Hr.
  induction ops as [|x ops IH]; intros h Hr; simpl; [done|].
  apply IH. destruct (decide (x = r)) as [->|Hne].
  - unfold contractTestOperation. rewrite Hr. simpl. by rewrite Hnone.
  - by rewrite contractTestOperation_other.
Qed.

(** X8.  In a batch run without a contract operation of the caller's, a
    record whose path reference the contract does not know is left as it
    was, and the batch goes on: a record of the same batch whose path
    reference the contract knows is injected against that contract
    operation. *)
Theorem missing_contract_operation_skipped
    this ct ops (h : Heap) r pm r' pm' operation :
  h !! r = Some pm ->
  getOperationByPath (oasParser this) (pm_pathRef pm) = None ->
  NoDup ops -> r' ∈ ops ->
  h !! r' = Some pm' ->
  getOperationByPath (oasParser this) (pm_pathRef pm') = Some operation ->
  let h' := generateContractTests this (Some ops) None (Some [ct]) h in
  h' !! r = Some pm
  /\ h' !! r' = Some (injectContractTests pm' operation ct).
Proof.
  intros Hr Hnone Hnd Hin Hr' Hop. simpl. unfold generateContractTests. simpl.
  split.
  - by apply batch_without_contract.
  - by apply batch_lookup.
Qed.

Lemma missing_contract_operation_skipped_witness :
  let h' :=
    generateContractTests Sample.suite (Some [1; 0]%nat) None
      (Some [Sample.allChecks]) Sample.mixedStore in
  h' !! 1%nat = Some Sample.opOwners
  /\ h' !! 0%nat
     = Some (injectContractTests Sample.opA Sample.listPets Sample.allChecks).
Proof.
  apply (missing_contract_operation_skipped Sample.suite Sample.allChecks
           [1; 0]%nat Sample.mixedStore 1%nat Sample.opOwners 0%nat Sample.opA
           Sample.listPets); try reflexivity; compute_done.
Defined.

(** ** Which records a setting with an exclusion list keeps *)

(** X9.  Under an exclusion list, [getOperationsFromSetting] returns
    exactly the resolved records that have a non-empty identifier and
    whose identifier and path reference are both absent from the list. *)
Theorem kept_operations {S} `{OperationSetting S}
    this (h : Heap) (settings : S) ex r :
  excludeForOperations settings = Some ex ->
  In r (getOperationsFromSetting this h settings)
  <-> In r (resolveOperations (postmanParser this) settings)
      /\ exists pm id,
           h !! r = Some pm /\ pm_id pm = Some id /\ id <> ""
           /\ ~ In id ex /\ ~ In (pm_pathRef pm) ex.
Proof.
  intros E. rewrite (getOperationsFromSetting_filtered this h settings ex E).
  rewrite List.filter_In, keepOperation_spec. split.
  - intros [Hin (pm & Hr & Hid & Hni & Hnp)]. split; [done|].
    apply truthyStr_iff in Hid as (id & Hid & Hne).
    exists pm, id. rewrite Hid in Hni.
    apply includes_false in Hni, Hnp. done.
  - intros [Hin (pm & id & Hr & Hid & Hne & Hni & Hnp)]. split; [done|].
    exists pm. rewrite Hid. split_and!; [done| | |].
    + apply truthyStr_iff. by exists id.
    + by apply includes_false.
    + by apply includes_false.
Qed.

Lemma kept_operations_witness :
  In 1%nat (getOperationsFromSetting Sample.suite Sample.store Sample.excludingOther)
  <-> In 1%nat (resolveOperations (postmanParser Sample.suite) Sample.excludingOther)
      /\ exists pm id,
           Sample.store !! 1%nat = Some pm /\ pm_id pm = Some id /\ id <> ""
           /\ ~ In id ["opZ"] /\ ~ In (pm_pathRef pm) ["opZ"].
Proof.
  apply (kept_operations Sample.suite Sample.store Sample.excludingOther
           ["opZ"] 1%nat).
  reflexivity.
Defined.

(** ** Content tests in a batch *)

Lemma contentTestOperation_other t (h : Heap) r r' :
  r <> r' -> contentTestOperation t h r !! r' = h !! r'.
Proof.
  intros Hne. unfold contentTestOperation.
  destruct (responseBodyTests t); [|reflexivity].
  by apply list_lookup_alter_ne.
Qed.

Lemma content_batch_untouched t ops (h : Heap) r :
  r ∉ ops -> fold_left (contentTestOperation t) ops h !! r = h !! r.
Proof.
  revert h. induction ops as [|x ops IH]; intros h Hnot; simpl; [done|].
  apply not_elem_of_cons in Hnot as [Hne Hnot].
  rewrite IH by done. by apply contentTestOperation_other.
Qed.

Lemma content_batch_lookup t ops (h : Heap) r pm :
  NoDup ops -> r ∈ ops -> h !! r = Some pm ->
  fold_left (contentTestOperation t) ops h !! r
  = Some (addTests pm (bodyContentTests [t])).
Proof.
  intros Hnd. revert h. induction Hnd as [|x ops Hx Hnd IH]; intros h Hin Hr.
  - by apply elem_of_nil in Hin.
  - simpl. apply elem_of_cons in Hin as [->|Hin].
    + rewrite content_batch_untouched by done.
      unfold contentTestOperation, bodyContentTests. simpl.
      destruct (responseBodyTests t) as [b|]; simpl.
      * rewrite list_lookup_alter_eq, Hr. reflexivity.
      * by rewrite addTests_nil.
    + apply IH; [done|].
      rewrite contentTestOperation_other; [done|].
      intros ->. contradiction.
Qed.

Lemma content_tests_lookup ops tests (h : Heap) r pm :
  NoDup ops -> r ∈ ops -> h !! r = Some pm ->
  fold_left (fun h t => fold_left (contentTestOperation t) ops h) tests h !! r
  = Some (addTests pm (bodyContentTests tests)).
Proof.
  intros Hnd Hin. revert h pm.
  induction tests as [|t tests IH]; intros h pm Hr; simpl.
  - by rewrite addTests_nil.
  - rewrite (IH _ (addTests pm (bodyContentTests [t]))).
    + rewrite addTests_app. unfold bodyContentTests. simpl.
      by rewrite app_nil_r.
    + by apply content_batch_lookup.
Qed.

Lemma content_tests_untouched ops tests (h : Heap) r :
  r ∉ ops ->
  fold_left (fun h t => fold_left (contentTestOperation t) ops h) tests h !! r
  = h !! r.
Proof.
  intros Hnot. revert h. induction tests as [|t tests IH]; intros h; simpl.
  - done.
  - rewrite IH. by apply content_batch_untouched.
Qed.

(** X10.  On a suite that has content tests of its own, and for
    operations the caller passes, each named once: every such record
    receives one body-content assertion per content test that has
    [responseBodyTests] (an empty array too), in the order of the content
    tests, the caller's tests replacing the suite's when given; the
    content tests' own selection and exclusion lists play no part; the
    other records are untouched; the returned array is the parser's
    [mappedOperations], not the operations passed. *)
Theorem content_tests_on_supplied_operations
    this own ops contentTests_ (h : Heap) :
  contentTests this = Some own ->
  NoDup ops ->
  let tests := default own contentTests_ in
  let result := injectContentTests this (Some ops) contentTests_ h in
  (forall r pm, r ∈ ops -> h !! r = Some pm ->
     result.1 !! r = Some (addTests pm (bodyContentTests tests)))
  /\ (forall r, r ∉ ops -> result.1 !! r = h !! r)
  /\ result.2 = mappedOperations (postmanParser this).
Proof.
  intros Hown Hnd. simpl. unfold injectContentTests. rewrite Hown. simpl.
  split_and!.
  - intros r pm Hin Hr. by apply content_tests_lookup.
  - intros r Hnot. by apply content_tests_untouched.
  - reflexivity.
Qed.

Lemma content_tests_on_supplied_operations_witness :
  let tests :=
    default [] (Some [Sample.bodyTest; Sample.idleContentTest;
                      Sample.emptyContentTest]) in
  let result :=
    injectContentTests Sample.suiteWithContentTests (Some [0%nat])
      (Some [Sample.bodyTest; Sample.idleContentTest; Sample.emptyContentTest])
      Sample.store in
  (forall r pm, r ∈ [0%nat] -> Sample.store !! r = Some pm ->
     result.1 !! r = Some (addTests pm (bodyContentTests tests)))
  /\ (forall r, r ∉ [0%nat] -> result.1 !! r = Sample.store !! r)
  /\ result.2 = mappedOperations (postmanParser Sample.suiteWithContentTests).
Proof.
  apply (content_tests_on_supplied_operations Sample.suiteWithContentTests []
           [0%nat]
           (Some [Sample.bodyTest; Sample.idleContentTest;
                  Sample.emptyContentTest])
           Sample.store); [reflexivity|compute_done].
Defined.

(** The record [opA] of the witness ends with two assertions: the idle
    content test adds none, the empty one adds one although its exclusion
    list names [opA]. *)
Example content_tests_on_opA :
  pm_tests
    (addTests Sample.opA
       (bodyContentTests
          [Sample.bodyTest; Sample.idleContentTest; Sample.emptyContentTest]))
  = [BodyContentTest [ {| rbt_key := "[0].id"; rbt_value := "1" |} ];
     BodyContentTest []].
Proof. reflexivity. Qed.

(** ** Response keys *)

Lemma parseDigits_uint d a :
  JS.parseDigits 10 (NilEmpty.string_of_uint d) (Some (Z.of_nat a))
  = Some (Z.of_nat (Nat.of_uint_acc d a)).
Proof.
  revert a. induction d as [|d IH|d IH|d IH|d IH|d IH|d IH|d IH|d IH|d IH|d IH];
    intros a; [reflexivity|..];
    cbn [NilEmpty.string_of_uint JS.parseDigits Nat.of_uint_acc];
    match goal with
    | |- context [JS.digitValue ?c] =>
        let v := eval vm_compute in (JS.digitValue c) in
        change (JS.digitValue c) with v
    end;
    cbn [default Z.ltb Z.compare Pos.compare Pos.compare_cont];
    rewrite <- IH; do 2 f_equal; unfold id; rewrite Nat.tail_mul_spec; lia.
Qed.

Lemma parseInt_uint d :
  d <> Decimal.Nil ->
  JS.parseInt (NilEmpty.string_of_uint d)
  = JS.parseDigits 10 (NilEmpty.string_of_uint d) (Some 0).
Proof.
  intros Hd.
  assert (E : JS.parseInt (NilEmpty.string_of_uint d)
              = Z.mul 1 <$> JS.parseDigits 10 (NilEmpty.string_of_uint d) (Some 0)).
  { destruct d as [|d|d|d|d|d|d|d|d|d|d]; [contradiction|..];
      destruct d; reflexivity. }
  rewrite E. change 0 with (Z.of_nat 0). rewrite parseDigits_uint. simpl.
  f_equal. lia.
Qed.

Lemma to_uint_not_nil n : Nat.to_uint n <> Decimal.Nil.
Proof.
  intros E. pose proof (DecimalNat.Unsigned.of_to n) as H.
  rewrite E in H. simpl in H. subst n. discriminate.
Qed.

(** In the model a numeral key reads back as its number.  (The model
    keeps the integer exact; JavaScript rounds it to a double above 2^53,
    which leaves it far above 302.) *)
Lemma parseInt_statusKey (n : nat) :
  JS.parseInt (statusKey n) = Some (Z.of_nat n).
Proof.
  unfold statusKey. rewrite (parseInt_uint _ (to_uint_not_nil n)).
  change 0 with (Z.of_nat 0). rewrite parseDigits_uint.
  change (Nat.of_uint_acc (Nat.to_uint n) 0) with (Nat.of_uint (Nat.to_uint n)).
  by rewrite DecimalNat.Unsigned.of_to.
Qed.

Lemma successCode_statusKey (n : nat) :
  successCode (statusKey n) = true <-> (200 <= n < 302)%nat.
Proof.
  unfold successCode. rewrite parseInt_statusKey.
  rewrite andb_true_iff, Z.leb_le, Z.ltb_lt. lia.
Qed.

(** X11.  For a response declared under the decimal numeral of a status
    code [n], the loop turn of [injectContractTests] returns the record
    unchanged when [n] is below 200 or at least 302, whatever the rule
    enables, and otherwise runs the checks: with a status-success check
    that applies to the record it adds exactly one status-success
    assertion. *)
Theorem numeral_key_in_range ct oa pm (n : nat) response :
  (~ (200 <= n < 302)%nat ->
   injectResponse ct oa pm (statusKey n, response) = pm)
  /\ ((200 <= n < 302)%nat ->
      checkApplies (statusSuccess ct) pm = true ->
      countTests isStatusSuccess
        (injectResponse ct oa pm (statusKey n, response))
      = Datatypes.S (countTests isStatusSuccess pm)).
Proof.
  pose proof (successCode_statusKey n) as Hn. split.
  - intros Hout. unfold injectResponse. rewrite inRange_successCode.
    destruct (successCode (statusKey n)); [|reflexivity].
    exfalso. apply Hout. by apply Hn.
  - intros Hin Hap. apply Hn in Hin.
    rewrite <- (addTests_nil pm) at 1.
    rewrite injectResponse_tests, countTests_addTests. simpl.
    rewrite response_statusSuccess. simpl. rewrite Hin, Hap. simpl. lia.
Qed.

(** ** Assigning variables *)

(** X12.  [injectAssignVariables] treats its settings one by one and
    starts the counter of fixed values afresh for each: running a list of
    settings gives what running its first part and then its second part
    gives, and a setting without [collectionVariables] can be left out
    without changing anything. *)
Theorem assign_settings_independent
    assign this state ops (h : Heap) :
  (forall first second,
     injectAssignVariables assign this state ops (Some (first ++ second)) h
     = injectAssignVariables assign this state ops (Some second)
         (injectAssignVariables assign this state ops (Some first) h).1)
  /\ (forall earlier setting later,
        collectionVariables setting = None ->
        injectAssignVariables assign this state ops
          (Some (earlier ++ setting :: later)) h
        = injectAssignVariables assign this state ops
            (Some (earlier ++ later)) h).
Proof.
  unfold injectAssignVariables.
  destruct (config state ≫= assignVariables) as [own|]; simpl.
  2: { by split. }
  split.
  - intros first second. by rewrite fold_left_app.
  - intros earlier setting later Hnone. rewrite !fold_left_app. simpl.
    unfold assignSetting at 2. by rewrite Hnone.
Qed.

Lemma assignOperation_step (assign : AssignCollectionVariables) setting
    (st : list PostmanMappedOperation * nat) r pm pm' c :
  st.1 !! r = Some pm ->
  assign pm setting st.2 = (pm', c) ->
  assignOperation assign setting st r = (<[r := pm']> st.1, c).
Proof. intros Hr E. unfold assignOperation. by rewrite Hr, E. Qed.

Lemma assignOperation_fold (assign : AssignCollectionVariables) setting
    (h : list PostmanMappedOperation) ops :
  NoDup ops ->
  (forall r, r ∈ ops -> is_Some (h !! r)) ->
  forall (h' : list PostmanMappedOperation) c,
  (forall r, r ∈ ops -> h' !! r = h !! r) ->
  exists counters,
    List.length counters = List.length ops
    /\ (forall c0, counters !! 0%nat = Some c0 -> c0 = c)
    /\ (forall i r pm ci,
          ops !! i = Some r -> h !! r = Some pm -> counters !! i = Some ci ->
          (fold_left (assignOperation assign setting) ops (h', c)).1 !! r
          = Some (assign pm setting ci).1
          /\ forall c', counters !! Datatypes.S i = Some c' ->
                        c' = (assign pm setting ci).2)
    /\ (forall r, r ∉ ops ->
          (fold_left (assignOperation assign setting) ops (h', c)).1 !! r
          = h' !! r).
Proof.
  intros Hnd. induction Hnd as [|x ops Hx Hnd IH]; intros Hin h' c Hagree.
  - exists []. split_and!; [reflexivity|done| |done].
    intros i r pm ci Hi. by rewrite lookup_nil in Hi.
  - destruct (Hin x) as [pmx Hpmx]; [by left|].
    assert (Hx' : h' !! x = Some pmx) by (rewrite Hagree; [done|by left]).
    destruct (assign pmx setting c) as [pmx' c1] eqn:E.
    simpl fold_left.
    rewrite (assignOperation_step assign setting (h', c) x pmx pmx' c1 Hx' E).
    simpl fst.
    destruct (IH (fun r Hr => Hin r (list_elem_of_further _ _ _ Hr))
                (<[x := pmx']> h') c1)
      as (counters & Hlen & Hhead & Hstep & Hout).
    { intros r Hr. rewrite list_lookup_insert_ne; [|intros ->; contradiction].
      apply Hagree. by right. }
    exists (c :: counters). split_and!.
    + simpl. by rewrite Hlen.
    + by intros c0 [= <-].
    + intros [|i] r pm ci Hi Hr Hci.
      * simpl in Hi, Hci. injection Hi as <-. injection Hci as <-.
        rewrite Hpmx in Hr. injection Hr as <-. rewrite E. simpl. split.
        -- rewrite Hout by done. apply list_lookup_insert_eq.
           by eapply lookup_lt_Some.
        -- intros c' Hc'. by apply Hhead.
      * simpl in Hi, Hci. apply (Hstep i r pm ci Hi Hr Hci).
    + intros r Hr. apply not_elem_of_cons in Hr as [Hne Hr].
      rewrite Hout by done. by apply list_lookup_insert_ne.
Qed.

(** X13.  Within one setting, over the operations the setting is applied
    to (the caller's, or those it resolves to), each named once: the
    first operation is given the counter 0, every further operation the
    counter [assignCollectionVariables] returned for the one before it,
    and each record ends up as [assignCollectionVariables] leaves it for
    its counter; the other records are untouched. *)
Theorem assign_counter_threads
    (assign : AssignCollectionVariables) this state own setting pmOperations
    (h : Heap) :
  config state ≫= assignVariables = Some own ->
  is_Some (collectionVariables setting) ->
  let operations :=
    match pmOperations with
    | Some ops => ops
    | None => getOperationsFromSetting this h setting
    end in
  NoDup operations ->
  (forall r, r ∈ operations -> is_Some (h !! r)) ->
  let result :=
    (injectAssignVariables assign this state pmOperations (Some [setting]) h).1 in
  exists counters,
    List.length counters = List.length operations
    /\ (forall c, counters !! 0%nat = Some c -> c = 0%nat)
    /\ (forall i r pm c,
          operations !! i = Some r -> h !! r = Some pm ->
          counters !! i = Some c ->
          result !! r = Some (assign pm setting c).1
          /\ forall c', counters !! Datatypes.S i = Some c' ->
                        c' = (assign pm setting c).2)
    /\ (forall r, r ∉ operations -> result !! r = h !! r).
Proof.
  intros Hown [cv Hcv] operations Hnd Hin. simpl.
  unfold injectAssignVariables. rewrite Hown. simpl.
  unfold assignSetting. rewrite Hcv.
  fold operations.
  apply (assignOperation_fold assign setting h operations Hnd Hin h 0%nat).
  done.
Qed.

Lemma assign_counter_threads_witness :
  let operations := [1; 0; 2]%nat in
  let result :=
    (injectAssignVariables Sample.countingAssign Sample.suite
       {| config := Some {| cfg_tests := None;
                            assignVariables := Some [] |};
          variationTests := None; extendTests := None;
          pmResponseJsonVarInjected := false |}
       (Some [1; 0; 2]%nat) (Some [Sample.assignToken]) Sample.store).1 in
  exists counters,
    List.length counters = List.length operations
    /\ (forall c, counters !! 0%nat = Some c -> c = 0%nat)
    /\ (forall i r pm c,
          operations !! i = Some r -> Sample.store !! r = Some pm ->
          counters !! i = Some c ->
          result !! r = Some (Sample.countingAssign pm Sample.assignToken c).1
          /\ forall c', counters !! Datatypes.S i = Some c' ->
                        c' = (Sample.countingAssign pm Sample.assignToken c).2)
    /\ (forall r, r ∉ operations -> result !! r = Sample.store !! r).
Proof.
  apply (assign_counter_threads Sample.countingAssign Sample.suite _ []
           Sample.assignToken (Some [1; 0; 2]%nat) Sample.store).
  - reflexivity.
  - by eexists.
  - compute_done.
  - intros r Hr. apply lookup_lt_is_Some_2.
    apply list_elem_of_lookup in Hr as [i Hi].
    destruct i as [|[|[|i]]]; simpl in Hi; try discriminate;
      injection Hi as <-; simpl; lia.
Defined.

(** In the witness the three records are given the counters 0, 1 and 2
    in the order of the operations. *)
Example assign_counters_on_sample :
  pm_tests
  <$> (injectAssignVariables Sample.countingAssign Sample.suite
         {| config := Some {| cfg_tests := None; assignVariables := Some [] |};
            variationTests := None; extendTests := None;
            pmResponseJsonVarInjected := false |}
         (Some [1; 0; 2]%nat) (Some [Sample.assignToken]) Sample.store).1
  = [ [StatusCodeTest {| tt_excludeForOperations := None; tt_param := Some 1 |}];
      [StatusCodeTest {| tt_excludeForOperations := None; tt_param := Some 0 |}];
      [StatusCodeTest {| tt_excludeForOperations := None; tt_param := Some 2 |}] ].
Proof. reflexivity. Qed.

(** ** The suite a configuration gives *)

(** X14.  A suite constructed from a configuration without [tests] has no
    tests of any kind; on it [generateContractTests] called without rules
    changes nothing, and [injectContentTests] changes nothing whatever it
    is passed. *)
Theorem suite_without_tests options :
  opt_config options ≫= cfg_tests = None ->
  let this := (newTestSuite options).1 in
  let state := (newTestSuite options).2 in
  contractTests this = None /\ contentTests this = None
  /\ variationTests state = None /\ extendTests state = None
  /\ (forall ops oa (h : Heap), generateContractTests this ops oa None h = h)
  /\ (forall ops tests (h : Heap),
        injectContentTests this ops tests h
        = (h, mappedOperations (opt_postmanParser options))).
Proof.
  intros Hnone. unfold newTestSuite, setupTests. rewrite Hnone. simpl.
  split_and!; reflexivity.
Qed.

Lemma suite_without_tests_witness :
  let this := (newTestSuite Sample.bareOptions).1 in
  let state := (newTestSuite Sample.bareOptions).2 in
  contractTests this = None /\ contentTests this = None
  /\ variationTests state = None /\ extendTests state = None
  /\ (forall ops oa (h : Heap), generateContractTests this ops oa None h = h)
  /\ (forall ops tests (h : Heap),
        injectContentTests this ops tests h
        = (h, mappedOperations (opt_postmanParser Sample.bareOptions))).
Proof.
  apply (suite_without_tests Sample.bareOptions). reflexivity.
Defined.

(** ** Scenarios in order *)

Lemma scenarioVariations_cons parser step steps :
  scenarioVariations parser (step :: steps)
  = scenarioVariations parser [step] ++ scenarioVariations parser steps.
Proof. unfold scenarioVariations. simpl. by rewrite app_nil_r. Qed.

Section ScenarioOrder.

Variable env : Environment.
Variable suite : TestSuite.
Variable h : list PostmanMappedOperation.
Variable calls : nat.

Hypothesis resolved_in_store :
  forall id r, getOperationById (postmanParser suite) id = Some r ->
               (r < List.length h)%nat.

Hypothesis injectVariations_id :
  forall pm oa v, pm_id (injectVariations env pm oa v) = pm_id pm.

Lemma addVariation_grown pm oa s v n :
  grown h s n -> grown h (addVariation env pm oa s v) (S n).
Proof.
  intros [(clones & Hh & Hlen) Hf]. unfold grown, addVariation.
  cbn [heap variationFolder]. split.
  - eexists (clones ++ [_]). rewrite Hh, <- app_assoc. split; [reflexivity|].
    rewrite List.length_app. simpl. lia.
  - rewrite Hf, seq_S. do 2 f_equal.
    rewrite Hh, List.length_app. lia.
Qed.

Lemma addVariations_order pm oa vs s n names :
  grown h s n -> issued env calls s names ->
  grown h (fold_left (addVariation env pm oa) vs s) (n + List.length vs)
  /\ issued env calls (fold_left (addVariation env pm oa) vs s)
       (names ++ map vr_name vs).
Proof using injectVariations_id.
  revert s n names. induction vs as [|v vs IH]; intros s n names Hg Hi; simpl.
  - by rewrite Nat.add_0_r, app_nil_r.
  - destruct (IH _ _ _ (addVariation_grown pm oa s v n Hg)
                (addVariation_issued env calls injectVariations_id pm oa s v
                   names Hi)) as [Hg' Hi'].
    split.
    + by replace (n + S (List.length vs))%nat with (S n + List.length vs)%nat by lia.
    + by rewrite <- app_assoc in Hi'.
Qed.

Lemma addStep_order s step n names :
  grown h s n -> issued env calls s names ->
  let vs := scenarioVariations (postmanParser suite) [step] in
  grown h (addStep env suite s step) (n + List.length vs)
  /\ issued env calls (addStep env suite s step) (names ++ map vr_name vs).
Proof using All.
  intros Hg Hi. unfold scenarioVariations, addStep. simpl.
  destruct (getOperationById _ _) as [r|] eqn:Hr; simpl.
  2: { by rewrite Nat.add_0_r, app_nil_r. }
  rewrite app_nil_r.
  destruct Hg as [(clones & Hh & Hlen) Hf].
  pose proof (resolved_in_store _ _ Hr) as Hlt.
  destruct (lookup_lt_is_Some_2 h r Hlt) as [pm Hpm].
  rewrite Hh, (lookup_app_l_Some _ _ _ _ Hpm).
  apply addVariations_order; [|done].
  split; [by exists clones|done].
Qed.

Lemma addSteps_order steps s n names :
  grown h s n -> issued env calls s names ->
  let vs := scenarioVariations (postmanParser suite) steps in
  grown h (fold_left (addStep env suite) steps s) (n + List.length vs)
  /\ issued env calls (fold_left (addStep env suite) steps s)
       (names ++ map vr_name vs).
Proof using All.
  revert s n names. induction steps as [|step steps IH]; intros s n names Hg Hi.
  - simpl. by rewrite Nat.add_0_r, app_nil_r.
  - destruct (addStep_order s step n names Hg Hi) as [Hg1 Hi1].
    destruct (IH _ _ _ Hg1 Hi1) as [Hg2 Hi2].
    cbv zeta in *. simpl fold_left.
    rewrite (scenarioVariations_cons (postmanParser suite) step steps).
    rewrite List.length_app, map_app, Nat.add_assoc, app_assoc.
    done.
Qed.

End ScenarioOrder.

(** X15.  Provided the parser's references point into the store and
    [injectVariations] leaves the identifier of the clone alone, [add]
    makes one clone and one random draw per variation of the steps whose
    operation the collection knows.  The clones are new records after the
    records of the store, which stay as they were; the scenario's folder
    lists them in step order and, within a step, in variation order; the
    k-th of them carries the identifier made of the k-th such variation's
    name and the k-th draw. *)
Theorem clones_in_scenario_order env this scenario
    (h : list PostmanMappedOperation) calls :
  (forall id r,
     getOperationById (postmanParser (testSuite this)) id = Some r ->
     (r < List.length h)%nat) ->
  (forall pm oa v, pm_id (injectVariations env pm oa v) = pm_id pm) ->
  let vs :=
    scenarioVariations (postmanParser (testSuite this)) (operations scenario) in
  let result := add env this scenario h calls in
  let folder := seq (List.length h) (List.length vs) in
  result.2 = (calls + List.length vs)%nat
  /\ (exists clones,
        result.1.2 = h ++ clones /\ List.length clones = List.length vs)
  /\ integrationTestCollection result.1.1
     = integrationTestCollection this
       ++ [ {| ig_name := it_name scenario; ig_items := folder |} ]
  /\ idsOf result.1.2 folder = issuedIds env calls (map vr_name vs).
Proof.
  intros Hvalid Hid. simpl.
  destruct (addSteps_order env (testSuite this) h calls Hvalid Hid
              (operations scenario)
              {| heap := h; randomCalls := calls; variationFolder := [] |}
              0%nat [])
    as [[Hclones Hfolder] (Hcalls & Hids & _)].
  { split; [exists []; by rewrite app_nil_r|reflexivity]. }
  { split_and!; [simpl; lia|reflexivity|constructor]. }
  simpl in *. rewrite length_map in Hcalls.
  unfold add. simpl. rewrite Hfolder in *.
  split_and!; done.
Qed.

Lemma clones_in_scenario_order_witness :
  let vs :=
    scenarioVariations (postmanParser (testSuite Sample.writer))
      (operations Sample.scenario) in
  let result :=
    add Sample.counting Sample.writer Sample.scenario Sample.store 0%nat in
  let folder := seq (List.length Sample.store) (List.length vs) in
  result.2 = (0 + List.length vs)%nat
  /\ (exists clones,
        result.1.2 = Sample.store ++ clones
        /\ List.length clones = List.length vs)
  /\ integrationTestCollection result.1.1
     = integrationTestCollection Sample.writer
       ++ [ {| ig_name := it_name Sample.scenario; ig_items := folder |} ]
  /\ idsOf result.1.2 folder = issuedIds Sample.counting 0%nat (map vr_name vs).
Proof.
  apply (clones_in_scenario_order Sample.counting Sample.writer Sample.scenario
           Sample.store 0%nat).
  - intros id r. simpl.
    destruct (String.eqb id "opA"); [intros [= <-]; simpl; lia|].
    destruct (String.eqb id "opB"); [intros [= <-]; simpl; lia|discriminate].
  - reflexivity.
Defined.

(** ** Rules applied to the resolved operations *)

Lemma batch_no_operation this oa ct ops (h : Heap) r pm :
  h !! r = Some pm ->
  JS.orElse oa (getOperationByPath (oasParser this) (pm_pathRef pm)) = None ->
  fold_left (contractTestOperation this oa ct) ops h !! r = Some pm.
Proof.
  intros Hr Hnone. revert h Hr.
  induction ops as [|x ops IH]; intros h Hr; simpl; [done|].
  apply IH. destruct (decide (x = r)) as [->|Hne].
  - unfold contractTestOperation. by rewrite Hr, Hnone.
  - by rewrite contractTestOperation_other.
Qed.

(** What one rule does to the record behind [r], given the operations the
    rule resolves to and the contract operation found for the record. *)
Lemma rule_on_record this oa ct ops (h : Heap) r pm :
  NoDup ops ->
  h !! r = Some pm ->
  fold_left (contractTestOperation this oa ct) ops h !! r
  = Some (if bool_decide (r ∈ ops)
          then match JS.orElse oa
                       (getOperationByPath (oasParser this) (pm_pathRef pm)) with
               | Some operation => injectContractTests pm operation ct
               | None => pm
               end
          else pm).
Proof.
  intros Hnd Hr. case_bool_decide as Hin.
  - destruct (JS.orElse _ _) as [operation|] eqn:Ho.
    + by apply batch_lookup.
    + by apply batch_no_operation.
  - rewrite batch_untouched; done.
Qed.

(** X16.  Run without operations of the caller's, [generateContractTests]
    applies the rules to a record in the order of the rules: each rule
    that resolves to the record injects on top of what the earlier rules
    left, against the contract operation of the record's path reference
    (or the caller's), and a rule that does not resolve to it, or a record
    without contract operation, changes nothing.  Resolution is the one
    of the store before the run. *)
Theorem rules_apply_in_order this oa rules (h : Heap) r pm :
  (forall ct, In ct rules -> NoDup (getOperationsFromSetting this h ct)) ->
  h !! r = Some pm ->
  generateContractTests this None oa (Some rules) h !! r
  = Some
      (fold_left
         (fun pm' ct =>
            if bool_decide (r ∈ getOperationsFromSetting this h ct)
            then match JS.orElse oa
                         (getOperationByPath (oasParser this) (pm_pathRef pm)) with
                 | Some operation => injectContractTests pm' operation ct
                 | None => pm'
                 end
            else pm')
         rules pm).
Proof.
  intros Hnd Hr. unfold generateContractTests. simpl.
  assert (G : forall (h' : Heap) pm',
    Forall2 extends h h' -> h' !! r = Some pm' ->
    pm_pathRef pm' = pm_pathRef pm ->
    fold_left
      (fun h0 ct =>
         fold_left (contractTestOperation this oa ct)
           (getOperationsFromSetting this h0 ct) h0) rules h' !! r
    = Some
        (fold_left
           (fun pm0 ct =>
              if bool_decide (r ∈ getOperationsFromSetting this h ct)
              then match JS.orElse oa
                           (getOperationByPath (oasParser this) (pm_pathRef pm)) with
                   | Some operation => injectContractTests pm0 operation ct
                   | None => pm0
                   end
              else pm0)
           rules pm')).
  { induction rules as [|ct rules IH]; intros h' pm' He Hr' Hp; simpl; [done|].
    assert (Hops : getOperationsFromSetting this h' ct
                   = getOperationsFromSetting this h ct)
      by (by apply getOperationsFromSetting_extends).
    rewrite Hops.
    apply IH.
    - intros ct' Hin. apply Hnd. by right.
    - eapply store_extends_trans; [exact He|].
      apply store_extends_fold. intros. apply contractTestOperation_extends.
    - rewrite (rule_on_record this oa ct _ h' r pm'); [|apply Hnd; by left|done].
      by rewrite Hp.
    - case_bool_decide; [|done].
      destruct (JS.orElse _ _); [|done].
      by rewrite injectContractTests_tests. }
  apply G; [apply store_extends_refl|done|done].
Qed.

Lemma rules_apply_in_order_witness :
  generateContractTests Sample.suite None None
    (Some [Sample.allChecks; Sample.excludingOther]) Sample.store !! 2%nat
  = Some
      (fold_left
         (fun pm' ct =>
            if bool_decide
                 (2%nat ∈ getOperationsFromSetting Sample.suite Sample.store ct)
            then match JS.orElse None
                         (getOperationByPath (oasParser Sample.suite)
                            (pm_pathRef Sample.opAnonymous)) with
                 | Some operation => injectContractTests pm' operation ct
                 | None => pm'
                 end
            else pm')
         [Sample.allChecks; Sample.excludingOther] Sample.opAnonymous).
Proof.
  apply (rules_apply_in_order Sample.suite None
           [Sample.allChecks; Sample.excludingOther] Sample.store 2%nat
           Sample.opAnonymous); [|reflexivity].
  intros ct [<-|[<-|[]]]; compute_done.
Defined.

(** In the witness the record without identifier is injected by the first
    rule, which has no exclusion list, and skipped by the second. *)
Example rules_on_anonymous_record :
  generateContractTests Sample.suite None None
    (Some [Sample.allChecks; Sample.excludingOther]) Sample.store !! 2%nat
  = Some (injectContractTests Sample.opAnonymous Sample.listPets Sample.allChecks).
Proof. reflexivity. Qed.

(** * Exclusion per check kind *)

Lemma response_count_statusCode ct pm e :
  countKind isStatusCode (responseTests ct pm e)
  = if successCode (fst e) && checkApplies (statusCode ct) pm
    then 1%nat else 0%nat.
Proof.
  unfold responseTests. destruct (successCode (fst e)); [|reflexivity].
  rewrite !countKind_app.
  rewrite (countKind_flat_map_0 _ _ _ (content_no_statusCode ct pm)).
  rewrite (countKind_flat_map_0 _ _ _ (header_no_statusCode ct pm)).
  rewrite countKind_optTest_0 by reflexivity.
  destruct (statusCode ct) as [o|], (responseTime ct) as [t|]; simpl;
    rewrite ?countKind_optTest; simpl; rewrite ?andb_false_r, ?andb_true_r;
    repeat match goal with
           | |- context [negb ?b] => destruct (negb b)
           end; reflexivity.
Qed.

Lemma response_count_responseTime ct pm e :
  countKind isResponseTime (responseTests ct pm e)
  = if successCode (fst e) && checkApplies (responseTime ct) pm
    then 1%nat else 0%nat.
Proof.
  unfold responseTests. destruct (successCode (fst e)); [|reflexivity].
  rewrite !countKind_app.
  rewrite (countKind_flat_map_0 _ _ _ (content_no_responseTime ct pm)).
  rewrite (countKind_flat_map_0 _ _ _ (header_no_responseTime ct pm)).
  rewrite countKind_optTest_0 by reflexivity.
  destruct (statusCode ct) as [o|], (responseTime ct) as [t|]; simpl;
    rewrite ?countKind_optTest; simpl; rewrite ?andb_false_r, ?andb_true_r;
    repeat match goal with
           | |- context [negb ?b] => destruct (negb b)
           end; reflexivity.
Qed.

Lemma responses_count_once k ct pm (b : bool) rs :
  (forall e, countKind k (responseTests ct pm e)
             = if successCode (fst e) && b then 1%nat else 0%nat) ->
  countKind k (flat_map (responseTests ct pm) rs)
  = if b
    then List.length (List.filter (fun e => successCode (fst e)) rs)
    else 0%nat.
Proof.
  intros Hk.
  rewrite (countKind_flat_map _ _ (fun e => successCode (fst e) && b) 1 _ Hk).
  rewrite filter_andb_const. destruct b; lia.
Qed.

Lemma responses_count_headers ct pm rs :
  countKind isHeader (flat_map (responseTests ct pm) rs)
  = if checkApplies (headersPresent ct) pm
    then List.length
           (List.filter (fun name => negb (String.eqb name ""))
              (flat_map (fun e => default [] (headers (snd e)))
                 (List.filter (fun e => successCode (fst e)) rs)))
    else 0%nat.
Proof.
  induction rs as [|e rs IH]; simpl.
  - by destruct (checkApplies _ pm).
  - rewrite countKind_app, IH, response_headers.
    destruct (successCode (fst e)); simpl; [|reflexivity].
    rewrite List.filter_app, List.length_app.
    by destruct (checkApplies _ pm).
Qed.

(** Every kind adds, to a record it applies to, one assertion per place
    at which it fires, and none to a record it does not apply to. *)
Lemma kind_count k pm oa ct :
  countTests (isKind k) (injectContractTests pm oa ct)
  = (countTests (isKind k) pm
     + if checkApplies (checkOf ct k) pm then occasions k oa else 0)%nat.
Proof.
  rewrite injectContractTests_tests, countTests_addTests. f_equal.
  destruct k; unfold checkOf, occasions, isKind, successContent, successHeaders;
    simpl kindName;
    destruct (getTestType_fields ct) as (E1 & E2 & E3 & E4 & E5 & E6 & E7).
  - rewrite E1. apply responses_count_once. intros e. apply response_statusSuccess.
  - rewrite E2. apply responses_count_once. intros e. apply response_count_statusCode.
  - rewrite E3. apply responses_count_once. intros e. apply response_count_responseTime.
  - rewrite E4. apply countKind_responses; try reflexivity. apply entry_contentType.
  - rewrite E5. apply countKind_responses; try reflexivity. apply entry_jsonBody.
  - rewrite E6. apply countKind_responses; try reflexivity. apply entry_jsonSchema.
  - rewrite E7. apply responses_count_headers.
Qed.

(** C4.  Exclusion lists are per check kind.  Take any of the seven kinds
    and a rule whose value for that kind carries an exclusion list with
    the identifier of record A.  In one batch of [generateContractTests]
    A receives no assertion of that kind, and of every other kind that
    the rule enables without excluding A it receives one assertion per
    place at which that kind fires; a record B of the same batch that the
    list does not name receives the excluded kind, one assertion per
    place at which it fires. *)
Theorem exclusion_is_per_check_kind
    this oaOperation ct (h : Heap) ops rA rB pmA pmB oaA oaB k o ex a :
  NoDup ops -> rA ∈ ops -> rB ∈ ops ->
  h !! rA = Some pmA -> h !! rB = Some pmB ->
  JS.orElse oaOperation (getOperationByPath (oasParser this) (pm_pathRef pmA))
  = Some oaA ->
  JS.orElse oaOperation (getOperationByPath (oasParser this) (pm_pathRef pmB))
  = Some oaB ->
  checkOf ct k = Some o ->
  tt_excludeForOperations o = Some ex ->
  pm_id pmA = Some a -> In a ex ->
  inOperations pmB (Some ex) = false ->
  let h' := generateContractTests this (Some ops) oaOperation (Some [ct]) h in
  exists pmA' pmB',
    h' !! rA = Some pmA' /\ h' !! rB = Some pmB'
    /\ countTests (isKind k) pmA' = countTests (isKind k) pmA
    /\ (forall k', k' <> k ->
          checkApplies (checkOf ct k') pmA = true ->
          countTests (isKind k') pmA'
          = (countTests (isKind k') pmA + occasions k' oaA)%nat)
    /\ countTests (isKind k) pmB'
       = (countTests (isKind k) pmB + occasions k oaB)%nat.
Proof.
  intros Hnd HA HB HrA HrB HoA HoB Hk Hex Hid Hin HexB h'.
  assert (HcA : checkApplies (checkOf ct k) pmA = false).
  { rewrite Hk. simpl. rewrite Hex. by rewrite (inOperations_id pmA ex a). }
  assert (HcB : checkApplies (checkOf ct k) pmB = true).
  { rewrite Hk. simpl. rewrite Hex. by rewrite HexB. }
  exists (injectContractTests pmA oaA ct), (injectContractTests pmB oaB ct).
  subst h'. unfold generateContractTests. simpl.
  split_and!.
  - by apply batch_lookup.
  - by apply batch_lookup.
  - rewrite kind_count, HcA. lia.
  - intros k' _ Hk'. by rewrite kind_count, Hk'.
  - by rewrite kind_count, HcB.
Qed.

Lemma exclusion_is_per_check_kind_witness :
  let h' :=
    generateContractTests Sample.suite (Some [0; 1]%nat) None
      (Some [Sample.noContentTypeForA]) Sample.store in
  exists pmA' pmB',
    h' !! 0%nat = Some pmA' /\ h' !! 1%nat = Some pmB'
    /\ countTests (isKind KContentType) pmA'
       = countTests (isKind KContentType) Sample.opA
    /\ (forall k', k' <> KContentType ->
          checkApplies (checkOf Sample.noContentTypeForA k') Sample.opA = true ->
          countTests (isKind k') pmA'
          = (countTests (isKind k') Sample.opA
             + occasions k' Sample.listPets)%nat)
    /\ countTests (isKind KContentType) pmB'
       = (countTests (isKind KContentType) Sample.opB
          + occasions KContentType Sample.listPets)%nat.
Proof.
  apply (exclusion_is_per_check_kind Sample.suite None Sample.noContentTypeForA
           Sample.store [0; 1]%nat 0%nat 1%nat Sample.opA Sample.opB
           Sample.listPets Sample.listPets KContentType
           (Sample.enabledExcept ["opA"]) ["opA"] "opA");
    try reflexivity.
  - compute_done.
  - compute_done.
  - compute_done.
  - simpl. by left.
Defined.

(** In the witness, none of the assertions record A receives checks the
    content type; record B receives the two content-type assertions as
    well. *)
Example exclusion_per_kind_on_sample :
  let h' :=
    generateContractTests Sample.suite (Some [0; 1]%nat) None
      (Some [Sample.noContentTypeForA]) Sample.store in
  (pm_tests <$> h' !! 0%nat)
  = Some [StatusSuccessTest;
          StatusCodeTest {| tt_excludeForOperations := None; tt_param := Some 200 |};
          ResponseTimeTest {| tt_excludeForOperations := None; tt_param := Some 300 |};
          JsonBodyTest; JsonSchemaTest "{type: object}";
          HeaderTest "X-Rate-Limit";
          StatusSuccessTest;
          StatusCodeTest {| tt_excludeForOperations := None; tt_param := Some 200 |};
          ResponseTimeTest {| tt_excludeForOperations := None; tt_param := Some 300 |}]
  /\ (countTests isContentType <$> h' !! 1%nat) = Some 2%nat.
Proof. split; reflexivity. Qed.

(** * Clone identifiers over a run *)

Lemma scenarioClones_variations parser steps :
  map snd (scenarioClones parser steps) = scenarioVariations parser steps.
Proof.
  unfold scenarioClones, scenarioVariations.
  induction steps as [|step steps IH]; simpl; [reflexivity|].
  rewrite map_app, IH. f_equal.
  destruct (getOperationById parser _); [|reflexivity].
  induction (variations step) as [|v vs IHv]; simpl; [reflexivity|].
  by rewrite IHv.
Qed.

Lemma lookup_map {A B} (f : A -> B) (l : list A) i :
  map f l !! i = f <$> l !! i.
Proof.
  revert i. induction l as [|x l IH]; intros [|i]; simpl; try reflexivity.
  apply IH.
Qed.

Lemma idsOf_app (h : Heap) extra items :
  Forall (fun r => (r < List.length h)%nat) items ->
  idsOf (h ++ extra) items = idsOf h items.
Proof.
  unfold idsOf. induction 1 as [|r items Hr _ IH]; simpl; [reflexivity|].
  by rewrite IH, lookup_app_l.
Qed.

Lemma idsOf_items_app (h : Heap) items1 items2 :
  idsOf h (items1 ++ items2) = idsOf h items1 ++ idsOf h items2.
Proof. unfold idsOf. apply map_app. Qed.

Lemma Forall_seq_lt start len :
  Forall (fun r => (r < start + len)%nat) (seq start len).
Proof. apply List.Forall_forall. intros r Hr. apply in_seq in Hr. lia. Qed.

Lemma issuedIds_app env calls names1 names2 :
  issuedIds env calls (names1 ++ names2)
  = issuedIds env calls names1
    ++ issuedIds env (calls + List.length names1) names2.
Proof.
  unfold issuedIds. rewrite imap_app. f_equal.
  apply imap_ext. intros k name _. simpl.
  by rewrite Nat.add_assoc.
Qed.

(** What one call of [add] leaves. *)
Lemma add_grows env this scenario (h : Heap) calls :
  (forall id r,
     getOperationById (postmanParser (testSuite this)) id = Some r ->
     (r < List.length h)%nat) ->
  (forall pm oa v, pm_id (injectVariations env pm oa v) = pm_id pm) ->
  let vs :=
    scenarioVariations (postmanParser (testSuite this)) (operations scenario) in
  let result := add env this scenario h calls in
  result.2 = (calls + List.length vs)%nat
  /\ (exists clones,
        result.1.2 = h ++ clones /\ List.length clones = List.length vs)
  /\ integrationTestCollection result.1.1
     = integrationTestCollection this
       ++ [ {| ig_name := it_name scenario;
               ig_items := seq (List.length h) (List.length vs) |} ]
  /\ idsOf result.1.2 (seq (List.length h) (List.length vs))
     = issuedIds env calls (map vr_name vs)
  /\ testSuite result.1.1 = testSuite this.
Proof.
  intros Hvalid Hid. simpl.
  destruct (addSteps_order env (testSuite this) h calls Hvalid Hid
              (operations scenario)
              {| heap := h; randomCalls := calls; variationFolder := [] |}
              0%nat [])
    as [[Hclones Hfolder] (Hcalls & Hids & _)].
  { split; [exists []; by rewrite app_nil_r|reflexivity]. }
  { split_and!; [simpl; lia|reflexivity|constructor]. }
  simpl in *. rewrite length_map in Hcalls.
  unfold add. simpl. rewrite Hfolder in *.
  split_and!; done.
Qed.

Lemma addAll_cons env this scenario scenarios (h : Heap) calls :
  addAll env this (scenario :: scenarios) h calls
  = addAll env (add env this scenario h calls).1.1 scenarios
      (add env this scenario h calls).1.2 (add env this scenario h calls).2.
Proof.
  reflexivity.
Qed.

(** What a run leaves. *)
Lemma addAll_grows env scenarios :
  (forall pm oa v, pm_id (injectVariations env pm oa v) = pm_id pm) ->
  forall this (h : Heap) calls,
  (forall id r,
     getOperationById (postmanParser (testSuite this)) id = Some r ->
     (r < List.length h)%nat) ->
  let names :=
    map (fun c => vr_name (snd c))
      (runClones (postmanParser (testSuite this)) scenarios) in
  let result := addAll env this scenarios h calls in
  result.2 = (calls + List.length names)%nat
  /\ (exists clones,
        result.1.2 = h ++ clones /\ List.length clones = List.length names)
  /\ (exists folders,
        integrationTestCollection result.1.1
        = integrationTestCollection this ++ folders
        /\ map ig_name folders = map it_name scenarios
        /\ concat (map ig_items folders)
           = seq (List.length h) (List.length names))
  /\ idsOf result.1.2 (seq (List.length h) (List.length names))
     = issuedIds env calls names.
Proof.
  intros Hid. induction scenarios as [|scenario scenarios IH];
    intros this h calls Hvalid.
  - simpl. split_and!.
    + lia.
    + exists []. by rewrite app_nil_r.
    + exists []. by rewrite app_nil_r.
    + reflexivity.
  - cbv zeta. rewrite addAll_cons.
    destruct (add_grows env this scenario h calls Hvalid Hid)
      as (Hc1 & (clones1 & Hh1 & Hl1) & Hf1 & Hi1 & Hs1).
    set (r1 := add env this scenario h calls) in *.
    assert (Hvalid1 : forall id r,
      getOperationById (postmanParser (testSuite r1.1.1)) id = Some r ->
      (r < List.length r1.1.2)%nat).
    { intros id r Hr. rewrite Hs1 in Hr. apply Hvalid in Hr.
      rewrite Hh1, List.length_app. lia. }
    destruct (IH r1.1.1 r1.1.2 r1.2 Hvalid1)
      as (Hc2 & (clones2 & Hh2 & Hl2) & (folders2 & Hf2 & Hn2 & Hit2) & Hi2).
    rewrite Hs1 in *.
    set (parser := postmanParser (testSuite this)) in *.
    set (vs1 := scenarioVariations parser (operations scenario)) in *.
    set (names2 := map (fun c => vr_name (snd c)) (runClones parser scenarios)) in *.
    assert (Hnames :
      map (fun c => vr_name (snd c)) (runClones parser (scenario :: scenarios))
      = map vr_name vs1 ++ names2).
    { unfold runClones. simpl. rewrite map_app. f_equal.
      subst vs1. rewrite <- scenarioClones_variations.
      by rewrite List.map_map. }
    rewrite Hnames, List.length_app, length_map.
    assert (Hlen1 : List.length r1.1.2 = (List.length h + List.length vs1)%nat).
    { rewrite Hh1, List.length_app. lia. }
    rewrite Hlen1 in *.
    split_and!.
    + rewrite Hc2, Hc1. lia.
    + exists (clones1 ++ clones2). rewrite Hh2, Hh1, <- app_assoc.
      split; [reflexivity|]. rewrite List.length_app. lia.
    + eexists (_ :: folders2). rewrite Hf2, Hf1, <- app_assoc. simpl.
      split_and!; [reflexivity|by rewrite Hn2|].
      by rewrite Hit2, seq_app.
    + rewrite seq_app, idsOf_items_app.
      rewrite Hi2, issuedIds_app, length_map, Hc1. f_equal.
      rewrite Hc1 in Hh2. rewrite Hh2, idsOf_app; [exact Hi1|].
      rewrite Hlen1. apply Forall_seq_lt.
Qed.

(** C8, as the code has it.  Over a run of [add] calls on one writer,
    provided the parser's references point into the store and
    [injectVariations] leaves the identifier of the clone alone: one
    random draw is made per clone; the k-th clone the run asks for is the
    k-th new record of the store and the k-th item of the run's folders,
    and its identifier is the name of its variation, a hyphen and the
    k-th draw of the run; it equals the identifier of its source exactly
    when the source already has that identifier; and the identifiers of
    all the clones of the run are pairwise distinct whenever the draws of
    the run are renderings of numbers in [0, 1) and pairwise distinct. *)
Theorem clone_ids_distinct_for_distinct_draws env this scenarios
    (h : list PostmanMappedOperation) calls :
  (forall id r,
     getOperationById (postmanParser (testSuite this)) id = Some r ->
     (r < List.length h)%nat) ->
  (forall pm oa v, pm_id (injectVariations env pm oa v) = pm_id pm) ->
  let plan := runClones (postmanParser (testSuite this)) scenarios in
  let result := addAll env this scenarios h calls in
  let n := List.length plan in
  result.2 = (calls + n)%nat
  /\ (exists folders,
        integrationTestCollection result.1.1
        = integrationTestCollection this ++ folders
        /\ map ig_name folders = map it_name scenarios
        /\ concat (map ig_items folders) = seq (List.length h) n)
  /\ (forall k r v, plan !! k = Some (r, v) ->
        exists clone,
          result.1.2 !! (List.length h + k)%nat = Some clone
          /\ pm_id clone
             = Some (newId (vr_name v) (random env (calls + k)%nat))
          /\ forall source, h !! r = Some source ->
               (pm_id clone = pm_id source
                <-> pm_id source
                    = Some (newId (vr_name v) (random env (calls + k)%nat))))
  /\ ((forall i, (calls <= i < calls + n)%nat -> drawOk (random env i) = true) ->
      (forall i j, (calls <= i < j)%nat -> (j < calls + n)%nat ->
                   random env i <> random env j) ->
      NoDup (idsOf result.1.2 (seq (List.length h) n))).
Proof.
  intros Hvalid Hid plan result n.
  destruct (addAll_grows env scenarios Hid this h calls Hvalid)
    as (Hc & _ & Hfolders & Hids).
  fold plan result in Hc, Hfolders, Hids.
  rewrite length_map in Hc, Hfolders, Hids. fold n in Hc, Hfolders, Hids.
  split_and!; [exact Hc|exact Hfolders| |].
  - intros k r v Hk.
    assert (Hlt : (k < n)%nat) by (by eapply lookup_lt_Some).
    assert (Hl : idsOf result.1.2 (seq (List.length h) n) !! k
                 = Some (result.1.2 !! (List.length h + k)%nat ≫= pm_id)).
    { unfold idsOf. by rewrite lookup_map, lookup_seq_lt. }
    rewrite Hids in Hl. unfold issuedIds in Hl.
    rewrite list_lookup_imap, lookup_map, Hk in Hl. simpl in Hl.
    injection Hl as Hl.
    destruct (result.1.2 !! (List.length h + k)%nat) as [clone|];
      [|discriminate].
    exists clone. simpl in Hl. split_and!; [reflexivity|by symmetry|].
    intros source _. rewrite <- Hl. split; intros E; by rewrite E.
  - intros Hok Hdiff. rewrite Hids.
    apply issuedIds_NoDup; rewrite length_map; done.
Qed.

Lemma clone_ids_distinct_for_distinct_draws_witness :
  let plan :=
    runClones (postmanParser (testSuite Sample.writer))
      [Sample.scenario; Sample.secondScenario] in
  let result :=
    addAll Sample.counting Sample.writer
      [Sample.scenario; Sample.secondScenario] Sample.store 0%nat in
  List.length plan = 4%nat
  /\ result.2 = (0 + List.length plan)%nat
  /\ (exists folders,
        integrationTestCollection result.1.1
        = integrationTestCollection Sample.writer ++ folders
        /\ map ig_name folders
           = map it_name [Sample.scenario; Sample.secondScenario]
        /\ concat (map ig_items folders)
           = seq (List.length Sample.store) (List.length plan))
  /\ NoDup (idsOf result.1.2
              (seq (List.length Sample.store) (List.length plan))).
Proof.
  destruct (clone_ids_distinct_for_distinct_draws Sample.counting Sample.writer
              [Sample.scenario; Sample.secondScenario] Sample.store 0%nat)
    as (Hc & Hfolders & _ & Hnodup).
  - intros id r. simpl.
    destruct (String.eqb id "opA"); [intros [= <-]; simpl; lia|].
    destruct (String.eqb id "opB"); [intros [= <-]; simpl; lia|discriminate].
  - reflexivity.
  - split_and!; [reflexivity|exact Hc|exact Hfolders|].
    apply Hnodup.
    + intros i Hi. vm_compute in Hi.
      destruct i as [|[|[|[|i]]]]; [reflexivity..|lia].
    + intros i j Hij Hj. vm_compute in Hj.
      destruct i as [|[|[|i]]], j as [|[|[|[|j]]]]; try lia; discriminate.
Defined.

(** C8 as stated fails when two draws come out equal: in the sample
    scenario the clones of the variation [happy] made for [opA] and for
    [opB] are two records with one identifier.  It also fails against the
    source: a record whose identifier is [happy-0.5], cloned for the
    variation [happy] with the draw 0.5, gives a clone with the
    identifier of its source. *)
Lemma clone_ids_collide :
  (let result :=
     add Sample.stuck Sample.writer Sample.scenario Sample.store 0%nat in
   integrationTestCollection result.1.1
   = [ {| ig_name := "pets flow"; ig_items := [3; 4; 5]%nat |} ]
   /\ idsOf result.1.2 [3; 4; 5]%nat
      = [Some "happy-0.5"; Some "unauthorized-0.5"; Some "happy-0.5"]
   /\ ~ NoDup (idsOf result.1.2 [3; 4; 5]%nat))
  /\ (let result :=
        add Sample.stuck Sample.clashWriter Sample.clashScenario
          Sample.clashStore 0%nat in
      getOperationById (postmanParser (testSuite Sample.clashWriter)) "happy-0.5"
      = Some 0%nat
      /\ integrationTestCollection result.1.1
         = [ {| ig_name := "clash"; ig_items := [1%nat] |} ]
      /\ (result.1.2 !! 1%nat ≫= pm_id) = (result.1.2 !! 0%nat ≫= pm_id)
      /\ result.1.2 !! 0%nat = Some Sample.opClash).
Proof.
  split.
  - split_and!; [reflexivity|reflexivity|].
    change (~ NoDup [Some "happy-0.5"; Some "unauthorized-0.5"; Some "happy-0.5"]).
    intros H. apply NoDup_cons in H as [Hnot _]. apply Hnot.
    apply elem_of_cons. right. apply elem_of_cons. by left.
  - split_and!; reflexivity.
Qed.
